(** * Lipinski rule-of-five analyzer: column detection and per-row analysis

    A shallow embedding of [utils/lipinski.py] ([detect_smiles_column],
    [analyze_lipinski]) and of the four aggregate counts that [app.py]
    derives from the returned frame.

    - Python [str] is [string]; a character is a code point below 256.
    - Python [float] is a binary64 [float]; the code only ever compares
      descriptors with integer literals.
    - A [DataFrame] is an index of row labels plus named columns of cells.
      Frames live in a store of objects, since [analyze_lipinski] copies its
      argument and then writes into the copy in place.
    - RDKit ([Chem.MolFromSmiles] and the four descriptor functions) is a
      parameter of the development. *)

From Stdlib Require Import Floats ZArith String Ascii List Bool Lia.
From stdpp Require Import gmap list strings.

Local Open Scope string_scope.
Local Open Scope list_scope.

(** ** Python string operations used by the source *)

Module PyStr.

Definition ord (c : ascii) : nat := nat_of_ascii c.

Definition in_range (lo hi : nat) (c : ascii) : bool :=
  (lo <=? ord c)%nat && (ord c <=? hi)%nat.

(** [str.isspace] on one character: TAB..CR, FS..US, space, NEL, NBSP. *)
Definition isspace (c : ascii) : bool :=
  in_range 9 13 c || in_range 28 32 c
  || (ord c =? 133)%nat || (ord c =? 160)%nat.

(** The character class [a-zA-Z0-9] of the regular expression. *)
Definition is_alnum (c : ascii) : bool :=
  in_range 97 122 c || in_range 65 90 c || in_range 48 57 c.

(** [str.lower] on one character: A-Z and the upper-case letters
    of the range 192..222 (all but the multiplication sign 215). Below
    code point 256 Python lowercases a string character by character, as
    [lower] does; above it that is no longer so (one character can become
    two), and such names are outside this model. *)
Definition lower_char (c : ascii) : ascii :=
  if in_range 65 90 c || (in_range 192 222 c && negb (ord c =? 215)%nat)
  then ascii_of_nat (ord c + 32)
  else c.

Fixpoint lower (s : string) : string :=
  match s with
  | EmptyString => EmptyString
  | String c s' => String (lower_char c) (lower s')
  end.

(** [re.sub(r'[^a-zA-Z0-9]', '', s)]: every character outside the class
    is replaced by the empty string. *)
Fixpoint sub_non_alnum (s : string) : string :=
  match s with
  | EmptyString => EmptyString
  | String c s' =>
      if is_alnum c then String c (sub_non_alnum s') else sub_non_alnum s'
  end.

Fixpoint lstrip (s : string) : string :=
  match s with
  | EmptyString => EmptyString
  | String c s' => if isspace c then lstrip s' else s
  end.

Fixpoint rstrip (s : string) : string :=
  match s with
  | EmptyString => EmptyString
  | String c s' =>
      match rstrip s' with
      | EmptyString => if isspace c then EmptyString else String c EmptyString
      | t => String c t
      end
  end.

(** [s.strip()] with no argument. *)
Definition strip (s : string) : string := rstrip (lstrip s).

(** Truth value of a string: [not s] holds exactly for the empty string. *)
Definition truthy (s : string) : bool :=
  match s with EmptyString => false | String _ _ => true end.

(** [needle in hay] on strings. *)
Fixpoint contains (hay needle : string) : bool :=
  String.prefix needle hay
  || match hay with
     | EmptyString => false
     | String _ hay' => contains hay' needle
     end.

(** [x in names] on a list of strings. *)
Definition in_list (x : string) (names : list string) : bool :=
  existsb (String.eqb x) names.

(** [any(f(name) for name in names)]. *)
Definition any {A} (f : A -> bool) (names : list A) : bool := existsb f names.

End PyStr.

(** ** Exceptions raised by the modelled code *)

Inductive exn :=
  | ValueError (msg : string)
  | KeyError (key : string)
  | Unbound.  (* a reference that names no object: cannot arise from Python *)

(** ** Cells and frames *)

(** Row labels are integers, as [pd.read_csv] numbers the rows. *)
Abbreviation label := Z.

Inductive cell :=
  | CNone
  | CBool (b : bool)
  | CInt (z : Z)
  | CFloat (f : float)
  | CStr (s : string).

(** A frame: the row labels and, in order, the named columns. *)
Record DataFrame := mkFrame {
  index : list label;
  cols : list (string * list cell)
}.

(** [df.columns] *)
Definition columns (df : DataFrame) : list string := map fst (cols df).

(** [len(df)] *)
Definition len (df : DataFrame) : nat := length (index df).

(** ** [detect_smiles_column] *)

(** [possible_names = ['smiles', 'smi', 'smile', 'structure']] *)
Definition possible_names : list string :=
  ["smiles"; "smi"; "smile"; "structure"].

(** First loop: [col_clean in possible_names]. *)
Definition exact_test (col : string) : bool :=
  let col_clean := PyStr.lower (PyStr.sub_non_alnum col) in
  PyStr.in_list col_clean possible_names.

(** Second loop: [any(name in col_lower for name in possible_names)]. *)
Definition partial_test (col : string) : bool :=
  let col_lower := PyStr.lower col in
  PyStr.any (fun name => PyStr.contains col_lower name) possible_names.

(** [for col in cs: if test(col): return col]; [None] when the loop runs
    to its end. *)
Fixpoint first_col (test : string -> bool) (cs : list string) : option string :=
  match cs with
  | [] => None
  | col :: cs' => if test col then Some col else first_col test cs'
  end.

Definition no_column_msg : string :=
  "No valid SMILES column found. Please ensure your CSV contains a column with SMILES strings.".

Definition detect_smiles_column (df : DataFrame) : exn + string :=
  match first_col exact_test (columns df) with
  | Some col => inr col
  | None =>
      match first_col partial_test (columns df) with
      | Some col => inr col
      | None => inl (ValueError no_column_msg)
      end
  end.

(** ** Frame operations used by [analyze_lipinski] and by [app.py] *)

(** Lookup by name in a list of named things: the first one so named. *)
Fixpoint assoc {A} (k : string) (l : list (string * A)) : option A :=
  match l with
  | [] => None
  | (n, a) :: l' => if String.eqb n k then Some a else assoc k l'
  end.

(** The data of column [c], when there is such a column. *)
Definition get_col (df : DataFrame) (c : string) : option (list cell) :=
  assoc c (cols df).

(** The cell of column [c] in the row at position [i]. *)
Definition cell_at (df : DataFrame) (c : string) (i : nat) : option cell :=
  match get_col df c with
  | Some d => d !! i
  | None => None
  end.

(** [df[c]] read: the column, or [KeyError]. *)
Definition getitem (df : DataFrame) (c : string) : exn + list cell :=
  match get_col df c with
  | Some d => inr d
  | None => inl (KeyError c)
  end.

(** [df[c] = v] with a scalar [v]: an existing column [c] is overwritten
    where it stands, a new one is appended after the last column; either
    way every row receives [v]. *)
Definition setitem (c : string) (v : cell) (df : DataFrame) : DataFrame :=
  let data := replicate (len df) v in
  if PyStr.in_list c (columns df)
  then mkFrame (index df)
         (map (fun nd => if String.eqb (fst nd) c then (fst nd, data) else nd)
              (cols df))
  else mkFrame (index df) (cols df ++ [(c, data)]).

(** One column under [df.at[l, c] = v]: the rows labelled [l] receive [v],
    all of them when several rows share the label. *)
Definition set_where (idx : list label) (l : label) (v : cell)
    (d : list cell) : list cell :=
  zip_with (fun l' x => if Z.eqb l' l then v else x) idx d.

(** [df.at[l, c] = v]. The analysis only writes at labels taken from the
    index and into columns it has created before, so the enlargement that
    pandas performs for an unknown label or column is not modelled: such a
    write leaves the frame as it is. *)
Definition at_set (l : label) (c : string) (v : cell) (df : DataFrame)
    : DataFrame :=
  mkFrame (index df)
    (map (fun nd =>
            if String.eqb (fst nd) c
            then (fst nd, set_where (index df) l v (snd nd))
            else nd)
         (cols df)).

(** A row as [iterrows] yields it: the cells of one position, by column. *)
Definition Series := list (string * cell).

Definition row_at (df : DataFrame) (i : nat) : Series :=
  map (fun nd => (fst nd, default CNone (snd nd !! i))) (cols df).

(** [df.iterrows()]: the pairs (label, row) in index order. *)
Definition iterrows (df : DataFrame) : list (label * Series) :=
  imap (fun i l => (l, row_at df i)) (index df).

(** [row[c]]. Of several columns of one name pandas would return all the
    cells, which is no string; the model returns the first, and is used on
    frames whose column names are distinct. *)
Definition Series_getitem (row : Series) (c : string) : exn + cell :=
  match assoc c row with
  | Some x => inr x
  | None => inl (KeyError c)
  end.

(** [col.sum()] on a column of booleans: the number of [True] cells. *)
Definition is_true (x : cell) : bool :=
  match x with CBool true => true | _ => false end.

Definition Series_sum (d : list cell) : nat :=
  length (List.filter is_true d).

(** [col == s]: the column of element-wise comparisons with a string. *)
Definition Series_eq (d : list cell) (s : string) : list cell :=
  map (fun x => CBool (match x with CStr t => String.eqb t s | _ => false end)) d.

(** ** The object store and the monad of the modelled code *)

(** References to objects of the store. *)
Abbreviation ref := nat.

Abbreviation store := (gmap nat DataFrame).

(** A computation runs on a store and either raises or returns; the store
    it leaves behind is the one at the point of the raise or the return. *)
Definition M (A : Type) : Type := store -> (exn + A) * store.

Definition ret {A} (a : A) : M A := fun h => (inr a, h).

Definition raise {A} (e : exn) : M A := fun h => (inl e, h).

Definition bind {A B} (m : M A) (k : A -> M B) : M B :=
  fun h =>
    match m h with
    | (inr a, h') => k a h'
    | (inl e, h') => (inl e, h')
    end.

Declare Scope py_scope.
Delimit Scope py_scope with py.
Notation "x <- m ;; k" := (bind m (fun x => k))
  (at level 100, m at next level, right associativity) : py_scope.
Notation "m ;; k" := (bind m (fun _ => k))
  (at level 100, right associativity) : py_scope.

Local Open Scope py_scope.

(** Lift a pure, possibly failing, result. *)
Definition lift {A} (r : exn + A) : M A :=
  match r with
  | inr a => ret a
  | inl e => raise e
  end.

(** Read the frame a reference is bound to. *)
Definition deref (r : ref) : M DataFrame :=
  fun h =>
    match h !! r with
    | Some d => (inr d, h)
    | None => (inl Unbound, h)
    end.

(** Update in place the frame a reference is bound to. *)
Definition mutate (r : ref) (f : DataFrame -> DataFrame) : M unit :=
  fun h =>
    match h !! r with
    | Some d => (inr tt, <[r := f d]> h)
    | None => (inl Unbound, h)
    end.

(** [df.copy()]: a new object holding the same index, columns and cells. *)
Definition copy (r : ref) : M ref :=
  fun h =>
    match h !! r with
    | Some d => let r' := fresh (dom h) in (inr r', <[r' := d]> h)
    | None => (inl Unbound, h)
    end.

(** [for x in xs: body(x)]; [body] returning normally is also how
    [continue] ends an iteration. *)
Fixpoint for_each {A} (xs : list A) (body : A -> M unit) : M unit :=
  match xs with
  | [] => ret tt
  | x :: xs' => body x ;; for_each xs' body
  end.

(** ** The cheminformatics engine *)

(** What the analysis uses of RDKit: [Chem.MolFromSmiles], which returns
    [None] for a string it cannot parse, [Descriptors.MolWt],
    [Descriptors.MolLogP], [Lipinski.NumHDonors], [Lipinski.NumHAcceptors]. *)
Class RDKit := {
  Mol : Type;
  MolFromSmiles : string -> option Mol;
  MolWt : Mol -> float;
  MolLogP : Mol -> float;
  NumHDonors : Mol -> Z;
  NumHAcceptors : Mol -> Z
}.

(** [x > n] for a float [x] and an integer literal [n] that binary64
    represents exactly; false when [x] is a NaN. *)
Definition float_gt (x n : float) : bool := PrimFloat.ltb n x.

(** ** [analyze_lipinski] *)

(** The body of the loop for one [(idx, row)]. *)
Definition analyze_row `{RDKit} (result_df : ref) (smiles_col : string)
    (it : label * Series) : M unit :=
  let idx := fst it in
  let row := snd it in
  smiles <- lift (Series_getitem row smiles_col) ;;
  match smiles with
  | CStr s =>
      if negb (PyStr.truthy (PyStr.strip s)) then ret tt (* continue *)
      else
        match MolFromSmiles s with
        | None => ret tt (* continue *)
        | Some mol =>
            mutate result_df (at_set idx "SMILES_Valid" (CBool true)) ;;
            let mw := MolWt mol in
            let logp := MolLogP mol in
            let h_donors := NumHDonors mol in
            let h_acceptors := NumHAcceptors mol in
            let violations := 0%Z in
            let violations :=
              if float_gt mw 500 then (violations + 1)%Z else violations in
            let violations :=
              if float_gt logp 5 then (violations + 1)%Z else violations in
            let violations :=
              if (h_donors >? 5)%Z then (violations + 1)%Z else violations in
            let violations :=
              if (h_acceptors >? 10)%Z then (violations + 1)%Z else violations in
            mutate result_df (at_set idx "MolWt" (CFloat mw)) ;;
            mutate result_df (at_set idx "LogP" (CFloat logp)) ;;
            mutate result_df (at_set idx "NumHDonors" (CInt h_donors)) ;;
            mutate result_df (at_set idx "NumHAcceptors" (CInt h_acceptors)) ;;
            mutate result_df (at_set idx "LipinskiViolations" (CInt violations)) ;;
            mutate result_df
              (at_set idx "LipinskiResult"
                 (CStr (if (violations =? 0)%Z then "Pass" else "Fail")))
        end
  | _ => ret tt (* not isinstance(smiles, str): continue *)
  end.

Definition analyze_lipinski `{RDKit} (df : ref) (smiles_col : string) : M ref :=
  result_df <- copy df ;;
  mutate result_df (setitem "MolWt" CNone) ;;
  mutate result_df (setitem "LogP" CNone) ;;
  mutate result_df (setitem "NumHDonors" CNone) ;;
  mutate result_df (setitem "NumHAcceptors" CNone) ;;
  mutate result_df (setitem "LipinskiViolations" (CInt 0)) ;;
  mutate result_df (setitem "LipinskiResult" (CStr "Invalid SMILES")) ;;
  mutate result_df (setitem "SMILES_Valid" (CBool false)) ;;
  d <- deref df ;;
  for_each (iterrows d) (analyze_row result_df smiles_col) ;;
  ret result_df.

(** ** The statistics of [app.py] *)

Record stats := mkStats {
  valid_smiles : nat;
  total_compounds : nat;
  pass_count : nat;
  fail_count : nat
}.

(** Lines 45 to 48 of [app.py], on the frame [analyze_lipinski] returned. *)
Definition statistics (result_df : DataFrame) : exn + stats :=
  match getitem result_df "SMILES_Valid" with
  | inl e => inl e
  | inr valid =>
      match getitem result_df "LipinskiResult" with
      | inl e => inl e
      | inr result =>
          inr (mkStats (Series_sum valid)
                       (len result_df)
                       (Series_sum (Series_eq result "Pass"))
                       (Series_sum (Series_eq result "Fail")))
      end
  end.

(** ** Stub engines and sample tables, to run the model on *)

Record toy_mol := mkToy {
  toy_mw : float;
  toy_logp : float;
  toy_donors : Z;
  toy_acceptors : Z
}.

(** A table-driven engine: three strings parse, every other is rejected. *)
Definition toy_parse (s : string) : option toy_mol :=
  if String.eqb s "CCO" then Some (mkToy 46.5 (-0.25) 1 1)
  else if String.eqb s "BIG" then Some (mkToy 812.5 6.5 2 12)
  else if String.eqb s "HEAVY" then Some (mkToy 500.5 5 5 10)
  else None.

Definition toy_engine : RDKit :=
  {| Mol := toy_mol; MolFromSmiles := toy_parse;
     MolWt := toy_mw; MolLogP := toy_logp;
     NumHDonors := toy_donors; NumHAcceptors := toy_acceptors |}.


(** A table as [pd.read_csv] builds it: labels 0, 1, 2, ... *)
Definition RangeIndex (n : nat) : list label := map Z.of_nat (seq 0 n).

Definition sample : DataFrame :=
  mkFrame (RangeIndex 5)
    [("id", [CInt 1; CInt 2; CInt 3; CInt 4; CInt 5]);
     ("smiles", [CStr "CCO"; CStr "   "; CStr "BIG"; CFloat nan; CStr "???"])].

(** A table that comes with a column named [MolWt] of its own. *)
Definition weighed : DataFrame :=
  mkFrame (RangeIndex 2)
    [("smiles", [CStr "CCO"; CStr ""]);
     ("MolWt", [CFloat 46; CFloat 18]);
     ("note", [CStr "a"; CStr "b"])].





Definition one_frame (d : DataFrame) : store := {[ 0%nat := d ]}.

(** What the table-driven engine makes of [sample]. *)
Definition sample_result : DataFrame :=
  mkFrame (RangeIndex 5)
    [("id", [CInt 1; CInt 2; CInt 3; CInt 4; CInt 5]);
     ("smiles", [CStr "CCO"; CStr "   "; CStr "BIG"; CFloat nan; CStr "???"]);
     ("MolWt", [CFloat 46.5; CNone; CFloat 812.5; CNone; CNone]);
     ("LogP", [CFloat (-0.25); CNone; CFloat 6.5; CNone; CNone]);
     ("NumHDonors", [CInt 1; CNone; CInt 2; CNone; CNone]);
     ("NumHAcceptors", [CInt 1; CNone; CInt 12; CNone; CNone]);
     ("LipinskiViolations", [CInt 0; CInt 0; CInt 3; CInt 0; CInt 0]);
     ("LipinskiResult",
      [CStr "Pass"; CStr "Invalid SMILES"; CStr "Fail";
       CStr "Invalid SMILES"; CStr "Invalid SMILES"]);
     ("SMILES_Valid",
      [CBool true; CBool false; CBool true; CBool false; CBool false])].

(** What it makes of [weighed]. *)
Definition weighed_result : DataFrame :=
  mkFrame (RangeIndex 2)
    [("smiles", [CStr "CCO"; CStr ""]);
     ("MolWt", [CFloat 46.5; CNone]);
     ("note", [CStr "a"; CStr "b"]);
     ("LogP", [CFloat (-0.25); CNone]);
     ("NumHDonors", [CInt 1; CNone]);
     ("NumHAcceptors", [CInt 1; CNone]);
     ("LipinskiViolations", [CInt 0; CInt 0]);
     ("LipinskiResult", [CStr "Pass"; CStr "Invalid SMILES"]);
     ("SMILES_Valid", [CBool true; CBool false])].

(** The rows of [sample] in reverse order, under another column name and
    without the [id] column. *)
Definition reversed : DataFrame :=
  mkFrame (RangeIndex 5)
    [("SMILES", [CStr "???"; CFloat nan; CStr "BIG"; CStr "   "; CStr "CCO"])].

(** What the table-driven engine makes of [reversed]. *)
Definition reversed_result : DataFrame :=
  mkFrame (RangeIndex 5)
    [("SMILES", [CStr "???"; CFloat nan; CStr "BIG"; CStr "   "; CStr "CCO"]);
     ("MolWt", [CNone; CNone; CFloat 812.5; CNone; CFloat 46.5]);
     ("LogP", [CNone; CNone; CFloat 6.5; CNone; CFloat (-0.25)]);
     ("NumHDonors", [CNone; CNone; CInt 2; CNone; CInt 1]);
     ("NumHAcceptors", [CNone; CNone; CInt 12; CNone; CInt 1]);
     ("LipinskiViolations", [CInt 0; CInt 0; CInt 3; CInt 0; CInt 0]);
     ("LipinskiResult",
      [CStr "Invalid SMILES"; CStr "Invalid SMILES"; CStr "Fail";
       CStr "Invalid SMILES"; CStr "Pass"]);
     ("SMILES_Valid",
      [CBool false; CBool false; CBool true; CBool false; CBool true])].

(** ** The analysis, row by row and column by column *)

(** The columns [analyze_lipinski] creates, in the order of creation, each
    with the value every row starts from. *)
Definition initial_cells : list (string * cell) :=
  [("MolWt", CNone); ("LogP", CNone); ("NumHDonors", CNone);
   ("NumHAcceptors", CNone); ("LipinskiViolations", CInt 0);
   ("LipinskiResult", CStr "Invalid SMILES"); ("SMILES_Valid", CBool false)].

Definition computed_columns : list string := map fst initial_cells.

(** The violation counter of the loop body, as the code accumulates it. *)
Definition count_violations `{RDKit} (mol : Mol) : Z :=
  let violations := 0%Z in
  let violations :=
    if float_gt (MolWt mol) 500 then (violations + 1)%Z else violations in
  let violations :=
    if float_gt (MolLogP mol) 5 then (violations + 1)%Z else violations in
  let violations :=
    if (NumHDonors mol >? 5)%Z then (violations + 1)%Z else violations in
  let violations :=
    if (NumHAcceptors mol >? 10)%Z then (violations + 1)%Z else violations in
  violations.

(** What the loop body writes for a row whose SMILES parsed, in the order
    of the writes. *)
Definition scored_cells `{RDKit} (mol : Mol) : list (string * cell) :=
  [("SMILES_Valid", CBool true);
   ("MolWt", CFloat (MolWt mol)); ("LogP", CFloat (MolLogP mol));
   ("NumHDonors", CInt (NumHDonors mol));
   ("NumHAcceptors", CInt (NumHAcceptors mol));
   ("LipinskiViolations", CInt (count_violations mol));
   ("LipinskiResult",
    CStr (if (count_violations mol =? 0)%Z then "Pass" else "Fail"))].

(** The two guards of the loop body: the molecule of a cell that is a
    string, is not blank and parses; [None] for a cell the loop skips. *)
Definition parse_cell `{RDKit} (x : cell) : option Mol :=
  match x with
  | CStr s => if PyStr.truthy (PyStr.strip s) then MolFromSmiles s else None
  | _ => None
  end.

(** The computed cells of a row, from its SMILES cell alone. *)
Definition row_cells `{RDKit} (x : cell) : list (string * cell) :=
  match parse_cell x with
  | Some mol => scored_cells mol
  | None => initial_cells
  end.

Definition outcome `{RDKit} (c : string) (x : cell) : option cell :=
  assoc c (row_cells x).

(** The frame after the seven column assignments. *)
Definition add_columns (d : DataFrame) : DataFrame :=
  foldl (fun f cv => setitem (fst cv) (snd cv) f) d initial_cells.

(** The frame after the writes of one iteration. *)
Definition write_cells (l : label) (cells : list (string * cell))
    (f : DataFrame) : DataFrame :=
  foldl (fun f cv => at_set l (fst cv) (snd cv) f) f cells.

Definition apply_row `{RDKit} (l : label) (x : cell) (f : DataFrame)
    : DataFrame :=
  match parse_cell x with
  | Some mol => write_cells l (scored_cells mol) f
  | None => f
  end.

(** The loop on the result frame alone: the outcome and the frame it
    leaves, which is the frame at the raise when a row lookup fails. *)
Fixpoint run_rows `{RDKit} (smiles_col : string) (rows : list (label * Series))
    (f : DataFrame) : (exn + unit) * DataFrame :=
  match rows with
  | [] => (inr tt, f)
  | it :: rows' =>
      match Series_getitem (snd it) smiles_col with
      | inl e => (inl e, f)
      | inr x => run_rows smiles_col rows' (apply_row (fst it) x f)
      end
  end.

(** The SMILES column as the loop reads it; no cells when the frame has
    no column of that name. *)
Definition smiles_cells (d : DataFrame) (smiles_col : string) : list cell :=
  default [] (get_col d smiles_col).

(** A computed column of [n] rows when the loop has gone through the first
    [k] of them: the outcomes of those rows, then the initial value. *)
Definition column_after `{RDKit} (c : string) (v0 : cell) (data : list cell)
    (n k : nat) : list cell :=
  map (fun x => default v0 (outcome c x)) (take k data) ++ replicate (n - k) v0.

(** ** Notions of the specification *)

(** A table as the data model has it: the rows are told apart by their
    labels, the columns by their names, and every column has one cell per
    row. A frame need not be so: [pd.read_csv] numbers the rows of a file
    whose lines have as many fields as the header, but takes the labels
    from the first field of lines that have one field more, and these may
    repeat. *)
Record wf_frame (d : DataFrame) : Prop := mkWf {
  wf_labels : NoDup (index d);
  wf_names : NoDup (columns d);
  wf_cells : Forall (fun nd => length (snd nd) = len d) (cols d)
}.

(** [needle] occurs in [hay]. *)
Definition occurs_in (needle hay : string) : Prop :=
  exists pre post, hay = String.append pre (String.append needle post).


(** Phase 2: the lowercased name contains a canonical term. *)
Definition substring_match (col : string) : Prop :=
  exists name, In name possible_names /\ occurs_in name (PyStr.lower col).


(** The four threshold tests of the rule of five. *)
Definition threshold_tests `{RDKit} (mol : Mol) : list bool :=
  [float_gt (MolWt mol) 500; float_gt (MolLogP mol) 5;
   (NumHDonors mol >? 5)%Z; (NumHAcceptors mol >? 10)%Z].

(** How many of them are true. *)
Definition true_tests `{RDKit} (mol : Mol) : Z :=
  Z.of_nat (length (List.filter (fun b : bool => b) (threshold_tests mol))).

(** The order of the computed columns in section 3 of the specification. *)
Definition spec_columns : list string :=
  ["SMILES_Valid"; "MolWt"; "LogP"; "NumHDonors"; "NumHAcceptors";
   "LipinskiViolations"; "LipinskiResult"].



(** ** The caller's lookup of the detected column *)

(** [df.columns.get_loc(c)] of [app.py], for column names that are
    distinct: the position of [c], or [KeyError] when no column has that
    name. *)
Fixpoint get_loc (cs : list string) (c : string) : exn + nat :=
  match cs with
  | [] => inl (KeyError c)
  | x :: cs' =>
      if String.eqb x c then inr 0
      else match get_loc cs' c with
           | inr i => inr (S i)
           | inl e => inl e
           end
  end.

(** ** Rows as the statistics see them *)

(** The row is scored: its SMILES cell passes both guards of the loop. *)
Definition row_valid `{RDKit} (x : cell) : bool :=
  match parse_cell x with Some _ => true | None => false end.

(** The row is scored and violates no threshold. *)
Definition row_passes `{RDKit} (x : cell) : bool :=
  match parse_cell x with
  | Some mol => (count_violations mol =? 0)%Z
  | None => false
  end.

(** The row is scored and violates some threshold. *)
Definition row_fails `{RDKit} (x : cell) : bool :=
  match parse_cell x with
  | Some mol => negb (count_violations mol =? 0)%Z
  | None => false
  end.

(** The characters of a string. *)
Definition chars (s : string) : list ascii := list_ascii_of_string s.

(** * Properties *)

(** ** Strings and lists of names *)

Lemma in_list_In (x : string) (names : list string) :
  PyStr.in_list x names = true <-> In x names.
Proof.
  unfold PyStr.in_list. rewrite existsb_exists. split.
  - intros (y & Hy & Heq). apply String.eqb_eq in Heq. now subst.
  - intros Hx. exists x. split; [assumption | apply String.eqb_refl].
Qed.

Lemma prefix_append (a b : string) :
  String.prefix a b = true <-> exists post, b = String.append a post.
Proof.
  revert b. induction a as [|c a IH]; intros b.
  - destruct b; simpl; split; eauto.
  - destruct b as [|c' b]; simpl.
    + split; [discriminate | intros (post & H); discriminate].
    + destruct (ascii_dec c c') as [->|Hne].
      * rewrite IH. split; intros (post & H); exists post.
        -- now rewrite H.
        -- now injection H.
      * split; [discriminate |].
        intros (post & H). injection H as H1 H2. congruence.
Qed.

Lemma contains_occurs (hay needle : string) :
  PyStr.contains hay needle = true <-> occurs_in needle hay.
Proof.
  unfold occurs_in. induction hay as [|c hay IH].
  - cbn [PyStr.contains]. rewrite orb_false_r, prefix_append. split.
    + intros (post & H). now exists EmptyString, post.
    + intros (pre & post & H). destruct pre; [now exists post | discriminate].
  - cbn [PyStr.contains]. rewrite orb_true_iff, prefix_append, IH. split.
    + intros [(post & H) | (pre & post & H)].
      * now exists EmptyString, post.
      * exists (String c pre), post. simpl. now rewrite H.
    + intros (pre & post & H). destruct pre as [|c' pre].
      * left. now exists post.
      * right. exists pre, post. simpl in H. now injection H.
Qed.


Lemma partial_test_spec (col : string) :
  partial_test col = true <-> substring_match col.
Proof.
  unfold partial_test, substring_match, PyStr.any.
  rewrite existsb_exists. split; intros (name & Hin & H); exists name;
    (split; [assumption | now apply contains_occurs]).
Qed.

(** ** The early-return loop *)

Lemma first_col_None (test : string -> bool) (cs : list string) :
  first_col test cs = None <-> forall x, In x cs -> test x = false.
Proof.
  induction cs as [|col cs IH]; simpl.
  - split; [intros _ x [] | reflexivity].
  - destruct (test col) eqn:E.
    + split; [discriminate |]. intros H. specialize (H col (or_introl eq_refl)).
      congruence.
    + rewrite IH. split.
      * intros H x [<- | Hx]; auto.
      * intros H x Hx. apply H. now right.
Qed.

Lemma first_col_Some (test : string -> bool) (cs : list string) (c : string) :
  first_col test cs = Some c <->
  exists pre post,
    cs = pre ++ c :: post /\ test c = true /\
    forall x, In x pre -> test x = false.
Proof.
  induction cs as [|col cs IH]; simpl.
  - split; [discriminate |]. intros (pre & post & H & _). now destruct pre.
  - destruct (test col) eqn:E.
    + split.
      * intros [= <-]. exists [], cs. repeat split; [assumption | intros x []].
      * intros (pre & post & H & Hc & Hpre). destruct pre as [|p pre].
        -- simpl in H. now injection H as ->.
        -- simpl in H. injection H as <- _.
           specialize (Hpre col (or_introl eq_refl)). congruence.
    + rewrite IH. split.
      * intros (pre & post & -> & Hc & Hpre). exists (col :: pre), post.
        repeat split; [assumption |]. intros x [<- | Hx]; auto.
      * intros (pre & post & H & Hc & Hpre). destruct pre as [|p pre].
        -- simpl in H. injection H as -> _. congruence.
        -- simpl in H. injection H as _ ->. exists pre, post.
           repeat split; [assumption |]. intros x Hx. apply Hpre. now right.
Qed.



Lemma first_col_In (test : string -> bool) (cs : list string) (c : string) :
  first_col test cs = Some c -> In c cs.
Proof.
  rewrite first_col_Some. intros (pre & post & -> & _).
  apply in_or_app. right. now left.
Qed.

(** ** [detect_smiles_column] *)

Example detect_structure :
  detect_smiles_column (mkFrame [] [("ID", []); ("Structure", []); ("Name", [])])
  = inr "Structure".
Proof. reflexivity. Qed.

Example detect_isosmiles :
  detect_smiles_column (mkFrame [] [("id", []); ("isosmiles", [])])
  = inr "isosmiles".
Proof. reflexivity. Qed.

Example detect_exact_beats_partial :
  detect_smiles_column (mkFrame [] [("isosmiles_code", []); ("smiles", [])])
  = inr "smiles".
Proof. reflexivity. Qed.

Example detect_punctuated_name :
  detect_smiles_column (mkFrame [] [("name", []); ("S.M.I", [])])
  = inr "S.M.I".
Proof. reflexivity. Qed.

Example detect_nothing :
  detect_smiles_column (mkFrame [] [("id", []); ("name", [])])
  = inl (ValueError no_column_msg).
Proof. reflexivity. Qed.



(** C10. A column name that [detect_smiles_column] returns is one of the
    column names of the frame, and two frames with the same sequence of
    column names get the same answer, whatever their rows hold. *)
Theorem detect_reads_names_only :
  (forall df c, detect_smiles_column df = inr c -> In c (columns df)) /\
  (forall df1 df2,
     columns df1 = columns df2 ->
     detect_smiles_column df1 = detect_smiles_column df2).
Proof.
  split.
  - intros df c. unfold detect_smiles_column.
    destruct (first_col exact_test (columns df)) as [c1|] eqn:E1.
    + intros [= <-]. eapply first_col_In, E1.
    + destruct (first_col partial_test (columns df)) as [c2|] eqn:E2;
        [| discriminate].
      intros [= <-]. eapply first_col_In, E2.
  - intros df1 df2 H. unfold detect_smiles_column. now rewrite H.
Qed.

(** ** Named columns *)

Lemma assoc_map {A B} (g : string -> A -> B) (k : string)
    (l : list (string * A)) :
  assoc k (map (fun nd => (fst nd, g (fst nd) (snd nd))) l)
  = g k <$> assoc k l.
Proof.
  induction l as [|[n a] l IH]; simpl; [done |].
  destruct (String.eqb_spec n k) as [->|]; done.
Qed.

Lemma assoc_app {A} (k : string) (l1 l2 : list (string * A)) :
  assoc k (l1 ++ l2)
  = match assoc k l1 with Some a => Some a | None => assoc k l2 end.
Proof.
  induction l1 as [|[n a] l1 IH]; simpl; [done |].
  by destruct (String.eqb n k).
Qed.

Lemma assoc_in_list {A} (k : string) (l : list (string * A)) :
  PyStr.in_list k (map fst l) = true <-> is_Some (assoc k l).
Proof.
  rewrite in_list_In. induction l as [|[n a] l IH]; simpl.
  - split; [done | by intros [? ?]].
  - destruct (String.eqb_spec n k) as [->|Hne].
    + split; [by eauto | by left].
    + rewrite <- IH. split; [by intros [?|?] | by right].
Qed.

Lemma assoc_not_in_list {A} (k : string) (l : list (string * A)) :
  PyStr.in_list k (map fst l) = false <-> assoc k l = None.
Proof.
  rewrite eq_None_not_Some, <- assoc_in_list.
  by destruct (PyStr.in_list k (map fst l)).
Qed.

Lemma assoc_None_fresh {A} (k : string) (l : list (string * A)) :
  k ∉ map fst l -> assoc k l = None.
Proof.
  intros Hk. apply assoc_not_in_list.
  destruct (PyStr.in_list k (map fst l)) eqn:E; [| done].
  apply in_list_In in E. by apply list_elem_of_In in E.
Qed.

(** Rewriting one named column in every place it occurs. *)
Lemma assoc_rewrite_column {A} (g : A -> A) (c k : string)
    (l : list (string * A)) :
  assoc k (map (fun nd => if String.eqb (fst nd) c
                          then (fst nd, g (snd nd)) else nd) l)
  = if String.eqb c k then g <$> assoc k l else assoc k l.
Proof.
  induction l as [|[n a] l IH]; simpl.
  - by destruct (String.eqb c k).
  - destruct (String.eqb_spec n c) as [->|Hnc]; simpl.
    + destruct (String.eqb_spec c k) as [->|]; [done |]. by rewrite IH.
    + destruct (String.eqb_spec n k) as [->|]; [| done].
      by destruct (String.eqb_spec c k) as [->|].
Qed.

Lemma columns_rewrite_column {A} (g : string -> A -> A) (c : string)
    (l : list (string * A)) :
  map fst (map (fun nd => if String.eqb (fst nd) c
                          then (fst nd, g (fst nd) (snd nd)) else nd) l)
  = map fst l.
Proof.
  rewrite map_map. apply map_ext. intros [n a]. simpl.
  by destruct (String.eqb n c).
Qed.

(** ** Column assignment and cell writes *)

Lemma index_setitem (c : string) (v : cell) (d : DataFrame) :
  index (setitem c v d) = index d.
Proof. unfold setitem. by destruct (PyStr.in_list c (columns d)). Qed.

Lemma columns_setitem (c : string) (v : cell) (d : DataFrame) :
  columns (setitem c v d)
  = if PyStr.in_list c (columns d) then columns d else columns d ++ [c].
Proof.
  unfold setitem, columns. destruct (PyStr.in_list c (map fst (cols d))); simpl.
  - apply (columns_rewrite_column (fun _ _ => replicate (len d) v)).
  - by rewrite map_app.
Qed.

Lemma get_col_setitem (c : string) (v : cell) (d : DataFrame) (c' : string) :
  get_col (setitem c v d) c'
  = if String.eqb c c' then Some (replicate (len d) v) else get_col d c'.
Proof.
  unfold setitem, get_col, columns.
  destruct (PyStr.in_list c (map fst (cols d))) eqn:E; simpl.
  - rewrite (assoc_rewrite_column (fun _ => replicate (len d) v)).
    destruct (String.eqb_spec c c') as [<-|]; [| done].
    apply assoc_in_list in E as [a ->]. done.
  - rewrite assoc_app. apply assoc_not_in_list in E. simpl.
    destruct (String.eqb_spec c c') as [<-|]; [by rewrite E |].
    by destruct (assoc c' (cols d)).
Qed.

Lemma index_at_set (l : label) (c : string) (v : cell) (d : DataFrame) :
  index (at_set l c v d) = index d.
Proof. done. Qed.

Lemma columns_at_set (l : label) (c : string) (v : cell) (d : DataFrame) :
  columns (at_set l c v d) = columns d.
Proof.
  unfold at_set, columns. simpl.
  apply (columns_rewrite_column (fun _ => set_where (index d) l v)).
Qed.

Lemma get_col_at_set (l : label) (c : string) (v : cell) (d : DataFrame)
    (c' : string) :
  get_col (at_set l c v d) c'
  = if String.eqb c c' then set_where (index d) l v <$> get_col d c'
    else get_col d c'.
Proof. unfold at_set, get_col. simpl. apply assoc_rewrite_column. Qed.

(** With labels that tell the rows apart, a write at the label of row [k]
    is a write at position [k]. *)
Lemma set_where_insert (idx : list label) (k : nat) (l : label) (v : cell)
    (d : list cell) :
  NoDup idx -> idx !! k = Some l -> length d = length idx ->
  set_where idx l v d = <[k := v]> d.
Proof.
  intros Hnd Hk Hlen. apply list_eq. intros i. unfold set_where.
  rewrite lookup_zip_with.
  destruct (idx !! i) as [li|] eqn:Ei; simpl.
  - destruct (decide (i = k)) as [->|Hne].
    + assert (li = l) as -> by congruence.
      rewrite Z.eqb_refl, list_lookup_insert_eq.
      * destruct (d !! k) eqn:Ed; [done |].
        apply lookup_ge_None in Ed. apply lookup_lt_Some in Hk. lia.
      * apply lookup_lt_Some in Hk. lia.
    + rewrite list_lookup_insert_ne by done.
      destruct (Z.eqb_spec li l) as [->|]; [| by destruct (d !! i)].
      destruct Hne. by eapply NoDup_lookup.
  - apply lookup_ge_None in Ei. symmetry. apply lookup_ge_None.
    rewrite length_insert. lia.
Qed.

(** ** The seven assignments and the writes of one iteration *)

Lemma index_assignments (cells : list (string * cell)) (d : DataFrame) :
  index (foldl (fun f cv => setitem (fst cv) (snd cv) f) d cells) = index d.
Proof.
  revert d. induction cells as [|[c v] cells IH]; intros d; simpl; [done |].
  by rewrite IH, index_setitem.
Qed.

Lemma get_col_assignments (cells : list (string * cell)) (d : DataFrame)
    (c : string) :
  NoDup (map fst cells) ->
  get_col (foldl (fun f cv => setitem (fst cv) (snd cv) f) d cells) c
  = match assoc c cells with
    | Some v => Some (replicate (len d) v)
    | None => get_col d c
    end.
Proof.
  revert d. induction cells as [|[c1 v1] cells IH]; intros d Hnd; simpl;
    [done |].
  apply NoDup_cons in Hnd as [Hc1 Hnd].
  rewrite IH by done. unfold len. rewrite index_setitem, get_col_setitem.
  destruct (String.eqb_spec c1 c) as [<-|Hne].
  - by rewrite (assoc_None_fresh c1 cells).
  - done.
Qed.

Lemma filter_fresh_ext (names cs : list string) (c : string) :
  c ∉ names ->
  List.filter (fun x => negb (PyStr.in_list x (cs ++ [c]))) names
  = List.filter (fun x => negb (PyStr.in_list x cs)) names.
Proof.
  intros Hc. apply filter_ext_in. intros x Hx. f_equal.
  unfold PyStr.in_list. rewrite existsb_app. simpl.
  rewrite orb_false_r. destruct (String.eqb_spec x c) as [->|]; [| by rewrite orb_false_r].
  by apply list_elem_of_In in Hx.
Qed.

Lemma columns_assignments (cells : list (string * cell)) (d : DataFrame) :
  NoDup (map fst cells) ->
  columns (foldl (fun f cv => setitem (fst cv) (snd cv) f) d cells)
  = columns d
    ++ List.filter (fun c => negb (PyStr.in_list c (columns d))) (map fst cells).
Proof.
  revert d. induction cells as [|[c1 v1] cells IH]; intros d Hnd; simpl.
  - by rewrite app_nil_r.
  - apply NoDup_cons in Hnd as [Hc1 Hnd].
    rewrite IH by done. rewrite columns_setitem.
    destruct (PyStr.in_list c1 (columns d)) eqn:E; simpl; [done |].
    rewrite filter_fresh_ext by done. by rewrite <- app_assoc.
Qed.

Lemma computed_columns_NoDup : NoDup computed_columns.
Proof. apply (bool_decide_unpack _). by vm_compute. Qed.

Lemma index_add_columns (d : DataFrame) : index (add_columns d) = index d.
Proof. apply index_assignments. Qed.

Lemma columns_add_columns (d : DataFrame) :
  columns (add_columns d)
  = columns d
    ++ List.filter (fun c => negb (PyStr.in_list c (columns d))) computed_columns.
Proof. apply columns_assignments, computed_columns_NoDup. Qed.

Lemma get_col_add_columns (d : DataFrame) (c : string) :
  get_col (add_columns d) c
  = match assoc c initial_cells with
    | Some v => Some (replicate (len d) v)
    | None => get_col d c
    end.
Proof. apply get_col_assignments, computed_columns_NoDup. Qed.

Lemma index_write_cells (l : label) (cells : list (string * cell))
    (f : DataFrame) :
  index (write_cells l cells f) = index f.
Proof.
  unfold write_cells. revert f.
  induction cells as [|[c v] cells IH]; intros f; simpl; [done |].
  by rewrite IH.
Qed.

Lemma columns_write_cells (l : label) (cells : list (string * cell))
    (f : DataFrame) :
  columns (write_cells l cells f) = columns f.
Proof.
  unfold write_cells. revert f.
  induction cells as [|[c v] cells IH]; intros f; simpl; [done |].
  by rewrite IH, columns_at_set.
Qed.

Lemma get_col_write_cells (l : label) (cells : list (string * cell))
    (f : DataFrame) (c : string) :
  NoDup (map fst cells) ->
  get_col (write_cells l cells f) c
  = match assoc c cells with
    | Some v => set_where (index f) l v <$> get_col f c
    | None => get_col f c
    end.
Proof.
  unfold write_cells. revert f.
  induction cells as [|[c1 v1] cells IH]; intros f Hnd; simpl; [done |].
  apply NoDup_cons in Hnd as [Hc1 Hnd].
  rewrite IH by done. rewrite index_at_set, get_col_at_set.
  destruct (String.eqb_spec c1 c) as [<-|Hne]; [| done].
  by rewrite (assoc_None_fresh c1 cells).
Qed.

Section Rows.
Context `{RDKit}.

Lemma scored_columns (mol : Mol) :
  map fst (scored_cells mol)
  = ["SMILES_Valid"; "MolWt"; "LogP"; "NumHDonors"; "NumHAcceptors";
     "LipinskiViolations"; "LipinskiResult"].
Proof. done. Qed.

Lemma scored_cells_NoDup (mol : Mol) : NoDup (map fst (scored_cells mol)).
Proof. rewrite scored_columns. apply (bool_decide_unpack _). by vm_compute. Qed.

(** The loop writes the columns the assignments created, and no other. *)
Lemma scored_iff_initial (mol : Mol) (c : string) :
  is_Some (assoc c (scored_cells mol)) <-> is_Some (assoc c initial_cells).
Proof.
  rewrite <- !assoc_in_list, scored_columns, !in_list_In. simpl. tauto.
Qed.

Lemma index_apply_row (l : label) (x : cell) (f : DataFrame) :
  index (apply_row l x f) = index f.
Proof.
  unfold apply_row. destruct (parse_cell x); [apply index_write_cells | done].
Qed.

Lemma columns_apply_row (l : label) (x : cell) (f : DataFrame) :
  columns (apply_row l x f) = columns f.
Proof.
  unfold apply_row. destruct (parse_cell x); [apply columns_write_cells | done].
Qed.

(** A column the analysis did not create is out of reach of the loop. *)
Lemma get_col_apply_row_other (l : label) (x : cell) (f : DataFrame)
    (c : string) :
  assoc c initial_cells = None ->
  get_col (apply_row l x f) c = get_col f c.
Proof.
  intros Hc. unfold apply_row. destruct (parse_cell x) as [mol|]; [| done].
  rewrite get_col_write_cells by apply scored_cells_NoDup.
  destruct (assoc c (scored_cells mol)) eqn:E; [| done].
  assert (is_Some (assoc c initial_cells)) as [? ?]
    by (apply (scored_iff_initial mol); eauto).
  congruence.
Qed.

End Rows.

(** ** The loop over the rows *)

Lemma assoc_elem_of {A} (k : string) (l : list (string * A)) (a : A) :
  assoc k l = Some a -> (k, a) ∈ l.
Proof.
  induction l as [|[n b] l IH]; simpl; [done |].
  destruct (String.eqb_spec n k) as [->|].
  - intros [= ->]. by left.
  - intros Ha. right. by apply IH.
Qed.

Lemma wf_column_length (d : DataFrame) (c : string) (data : list cell) :
  wf_frame d -> get_col d c = Some data -> length data = len d.
Proof.
  intros [_ _ Hcells] Hc. apply assoc_elem_of in Hc.
  rewrite Forall_forall in Hcells. by apply (Hcells (c, data)).
Qed.

Lemma row_at_getitem (d : DataFrame) (c : string) (i : nat) :
  Series_getitem (row_at d i) c
  = match get_col d c with
    | Some data => inr (default CNone (data !! i))
    | None => inl (KeyError c)
    end.
Proof.
  unfold Series_getitem, row_at, get_col.
  pose proof (assoc_map (fun _ col => default CNone (col !! i)) c (cols d)) as E.
  simpl in E. rewrite E. by destruct (assoc c (cols d)).
Qed.

Lemma iterrows_lookup (d : DataFrame) (i : nat) (l : label) :
  index d !! i = Some l -> iterrows d !! i = Some (l, row_at d i).
Proof. intros Hi. unfold iterrows. by rewrite list_lookup_imap, Hi. Qed.

Lemma length_iterrows (d : DataFrame) : length (iterrows d) = len d.
Proof. unfold iterrows. by rewrite length_imap. Qed.

Section Loop.
Context `{RDKit}.

Lemma run_rows_app (c : string) (rows1 rows2 : list (label * Series))
    (f : DataFrame) :
  run_rows c (rows1 ++ rows2) f
  = match run_rows c rows1 f with
    | (inr _, f') => run_rows c rows2 f'
    | (inl e, f') => (inl e, f')
    end.
Proof.
  revert f. induction rows1 as [|it rows1 IH]; intros f; simpl; [done |].
  destruct (Series_getitem (snd it) c); [done | apply IH].
Qed.

Lemma length_column_after (c : string) (v0 : cell) (data : list cell)
    (n k : nat) :
  length data = n -> k <= n -> length (column_after c v0 data n k) = n.
Proof.
  intros Hlen Hk. unfold column_after.
  rewrite length_app, length_map, length_take, length_replicate. lia.
Qed.

Lemma column_after_0 (c : string) (v0 : cell) (data : list cell) (n : nat) :
  column_after c v0 data n 0 = replicate n v0.
Proof. unfold column_after. by rewrite take_0, Nat.sub_0_r. Qed.

Lemma column_after_all (c : string) (v0 : cell) (data : list cell) (n : nat) :
  length data = n ->
  column_after c v0 data n n = map (fun x => default v0 (outcome c x)) data.
Proof.
  intros Hlen. unfold column_after.
  rewrite take_ge by lia. by rewrite Nat.sub_diag, app_nil_r.
Qed.

(** One more row: its outcome replaces the initial value at its position. *)
Lemma column_after_S (c : string) (v0 : cell) (data : list cell) (n k : nat)
    (x : cell) :
  length data = n -> data !! k = Some x ->
  column_after c v0 data n (S k)
  = <[k := default v0 (outcome c x)]> (column_after c v0 data n k).
Proof.
  intros Hlen Hx. pose proof (lookup_lt_Some _ _ _ Hx) as Hk.
  unfold column_after. rewrite (take_S_r _ _ _ Hx), map_app. simpl.
  rewrite insert_app_r_alt by (rewrite length_map, length_take; lia).
  rewrite length_map, length_take, Nat.min_l by lia.
  replace (n - k) with (S (n - S k)) by lia.
  rewrite Nat.sub_diag. simpl. by rewrite <- app_assoc.
Qed.

(** The invariant of the loop: when the first [k] rows are done, the frame
    has its index and its columns as before the loop, the columns the
    analysis did not create are those of the input, and each computed
    column holds the outcomes of the rows done, then initial values. *)
Lemma run_rows_prefix (d : DataFrame) (c : string) (data : list cell)
    (k : nat) :
  wf_frame d -> get_col d c = Some data -> k <= len d ->
  exists fk,
    run_rows c (take k (iterrows d)) (add_columns d) = (inr tt, fk)
    /\ index fk = index d
    /\ columns fk = columns (add_columns d)
    /\ (forall c', assoc c' initial_cells = None ->
                   get_col fk c' = get_col d c')
    /\ (forall c' v0, assoc c' initial_cells = Some v0 ->
          get_col fk c' = Some (column_after c' v0 data (len d) k)).
Proof.
  intros Hwf Hc. pose proof (wf_column_length _ _ _ Hwf Hc) as Hlen.
  induction k as [|k IH]; intros Hk.
  - exists (add_columns d). rewrite take_0. cbn [run_rows].
    split; [done |]. split; [apply index_add_columns |]. split; [done |].
    split; intros c'.
    + intros Hc'. by rewrite get_col_add_columns, Hc'.
    + intros v0 Hc'. by rewrite get_col_add_columns, Hc', column_after_0.
  - destruct IH as (fk & Hrun & Hidx & Hcols & Hother & Hcomp); [lia |].
    destruct (lookup_lt_is_Some_2 (index d) k) as [l Hl]; [unfold len in Hk; lia |].
    destruct (lookup_lt_is_Some_2 data k) as [x Hx]; [lia |].
    rewrite (take_S_r _ _ _ (iterrows_lookup _ _ _ Hl)), run_rows_app, Hrun.
    cbn [run_rows fst snd]. rewrite row_at_getitem, Hc, Hx.
    cbn [default from_option run_rows].
    exists (apply_row l x fk). split; [done |].
    split; [by rewrite index_apply_row |].
    split; [by rewrite columns_apply_row |].
    split; intros c'.
    + intros Hc'. by rewrite get_col_apply_row_other, Hother.
    + intros v0 Hc'. rewrite (column_after_S _ _ _ _ _ x) by done.
      specialize (Hcomp c' v0 Hc').
      assert (Hlk : length (column_after c' v0 data (len d) k) = len d)
        by (apply length_column_after; [done | lia]).
      unfold apply_row, outcome, row_cells.
      destruct (parse_cell x) as [mol|].
      * rewrite get_col_write_cells by apply scored_cells_NoDup.
        destruct (proj2 (scored_iff_initial mol c')) as [v Hv]; [by eauto |].
        rewrite Hv, Hcomp, Hidx. simpl. f_equal.
        apply set_where_insert; [apply Hwf | done | done].
      * rewrite Hc', Hcomp. simpl. f_equal. symmetry.
        apply list_insert_id. unfold column_after.
        rewrite lookup_app_r by (rewrite length_map, length_take; lia).
        apply lookup_replicate_2. rewrite length_map, length_take. lia.
Qed.

End Loop.

Section Complete.
Context `{RDKit}.

(** The loop runs to its end when the frame has the SMILES column. *)
Lemma run_rows_all (d : DataFrame) (c : string) (data : list cell) :
  wf_frame d -> get_col d c = Some data ->
  exists out,
    run_rows c (iterrows d) (add_columns d) = (inr tt, out)
    /\ index out = index d
    /\ columns out = columns (add_columns d)
    /\ (forall c', assoc c' initial_cells = None ->
                   get_col out c' = get_col d c')
    /\ (forall c' v0, assoc c' initial_cells = Some v0 ->
          get_col out c'
          = Some (map (fun x => default v0 (outcome c' x)) data)).
Proof.
  intros Hwf Hc. pose proof (wf_column_length _ _ _ Hwf Hc) as Hlen.
  destruct (run_rows_prefix d c data (len d) Hwf Hc (le_n _))
    as (out & Hrun & Hidx & Hcols & Hother & Hcomp).
  rewrite take_ge in Hrun by (rewrite length_iterrows; lia).
  exists out. repeat (split; [done |]).
  intros c' v0 Hc'. by rewrite (Hcomp c' v0 Hc'), column_after_all.
Qed.

(** Without that column the first row raises, and a frame without rows
    comes back with its new, empty columns. *)
Lemma run_rows_no_column (d : DataFrame) (c : string) :
  get_col d c = None ->
  run_rows c (iterrows d) (add_columns d)
  = (match index d with [] => inr tt | _ :: _ => inl (KeyError c) end,
     add_columns d).
Proof.
  intros Hc. unfold iterrows. destruct (index d) as [|l idx]; [done |].
  rewrite imap_cons. cbn [run_rows fst snd].
  by rewrite row_at_getitem, Hc.
Qed.

(** What a completed loop leaves, whichever way it completed. *)
Lemma run_rows_returned (d : DataFrame) (c : string) (out : DataFrame) :
  wf_frame d ->
  run_rows c (iterrows d) (add_columns d) = (inr tt, out) ->
  length (smiles_cells d c) = len d
  /\ index out = index d
  /\ columns out = columns (add_columns d)
  /\ (forall c', assoc c' initial_cells = None ->
                 get_col out c' = get_col d c')
  /\ (forall c' v0, assoc c' initial_cells = Some v0 ->
        get_col out c'
        = Some (map (fun x => default v0 (outcome c' x)) (smiles_cells d c))).
Proof.
  intros Hwf Hrun. unfold smiles_cells.
  destruct (get_col d c) as [data|] eqn:Hc; cbn [default from_option].
  - destruct (run_rows_all d c data Hwf Hc) as (out' & Hrun' & Hrest).
    rewrite Hrun in Hrun'. injection Hrun' as <-.
    split; [by eapply wf_column_length | done].
  - rewrite (run_rows_no_column d c Hc) in Hrun.
    unfold len. destruct (index d) as [|l idx] eqn:Hidx; [| done].
    injection Hrun as <-. split; [done |].
    split; [by rewrite index_add_columns |]. split; [done |].
    split; intros c'.
    + intros Hc'. by rewrite get_col_add_columns, Hc'.
    + intros v0 Hc'. rewrite get_col_add_columns, Hc'. unfold len.
      by rewrite Hidx.
Qed.

End Complete.

(** ** Running the program on a store *)

Lemma mutate_run (h : store) (r : ref) (d : DataFrame)
    (f : DataFrame -> DataFrame) :
  h !! r = Some d -> mutate r f h = (inr tt, <[r := f d]> h).
Proof. intros Hr. unfold mutate. by rewrite Hr. Qed.

Lemma mutate_again (h : store) (r : ref) (d : DataFrame)
    (f : DataFrame -> DataFrame) :
  mutate r f (<[r := d]> h) = (inr tt, <[r := f d]> h).
Proof.
  rewrite (mutate_run _ r d) by apply lookup_insert_eq.
  by rewrite insert_insert_eq.
Qed.

Section Run.
Context `{RDKit}.

Lemma analyze_row_run (h : store) (r : ref) (f : DataFrame) (c : string)
    (it : label * Series) :
  analyze_row r c it (<[r := f]> h)
  = match Series_getitem (snd it) c with
    | inl e => (inl e, <[r := f]> h)
    | inr x => (inr tt, <[r := apply_row (fst it) x f]> h)
    end.
Proof.
  unfold analyze_row, bind, lift, apply_row.
  destruct (Series_getitem (snd it) c) as [e|x]; [done |].
  destruct x as [| | | |s]; try done. cbn [ret parse_cell].
  destruct (PyStr.truthy (PyStr.strip s)); [| done]. cbn [negb].
  destruct (MolFromSmiles s) as [mol|]; [| done].
  by rewrite !mutate_again.
Qed.

Lemma for_each_run (h : store) (r : ref) (f : DataFrame) (c : string)
    (rows : list (label * Series)) :
  for_each rows (analyze_row r c) (<[r := f]> h)
  = (fst (run_rows c rows f), <[r := snd (run_rows c rows f)]> h).
Proof.
  revert f. induction rows as [|it rows IH]; intros f; [done |].
  cbn [for_each run_rows]. unfold bind at 1. rewrite analyze_row_run.
  destruct (Series_getitem (snd it) c) as [e|x]; [done | apply IH].
Qed.

(** The whole analysis: the copy is a new object, the loop runs on it, and
    the store is otherwise as it was. *)
Lemma analyze_run (h : store) (df : ref) (d : DataFrame) (c : string) :
  h !! df = Some d ->
  analyze_lipinski df c h
  = (match fst (run_rows c (iterrows d) (add_columns d)) with
     | inr _ => inr (fresh (dom h))
     | inl e => inl e
     end,
     <[fresh (dom h) := snd (run_rows c (iterrows d) (add_columns d))]> h).
Proof.
  intros Hdf. unfold analyze_lipinski.
  unfold bind at 1. unfold copy. rewrite Hdf.
  assert (Hr : fresh (dom h) ≠ df).
  { intros E. apply (is_fresh (dom h)). rewrite E. apply elem_of_dom. by eauto. }
  set (r := fresh (dom h)) in *.
  do 7 (unfold bind at 1; rewrite mutate_again).
  unfold bind at 1. unfold deref.
  rewrite lookup_insert_ne, Hdf by done.
  unfold bind at 1. rewrite for_each_run.
  change (setitem "SMILES_Valid" (CBool false) _) with (add_columns d).
  by destruct (fst (run_rows c (iterrows d) (add_columns d))).
Qed.

End Run.

(** ** What the loop never touches *)

Section Frame.
Context `{RDKit}.

Lemma index_run_rows (c : string) (rows : list (label * Series))
    (f : DataFrame) :
  index (snd (run_rows c rows f)) = index f.
Proof.
  revert f. induction rows as [|it rows IH]; intros f; cbn [run_rows]; [done |].
  destruct (Series_getitem (snd it) c); [done |].
  by rewrite IH, index_apply_row.
Qed.

Lemma columns_run_rows (c : string) (rows : list (label * Series))
    (f : DataFrame) :
  columns (snd (run_rows c rows f)) = columns f.
Proof.
  revert f. induction rows as [|it rows IH]; intros f; cbn [run_rows]; [done |].
  destruct (Series_getitem (snd it) c); [done |].
  by rewrite IH, columns_apply_row.
Qed.

Lemma get_col_run_rows_other (c : string) (rows : list (label * Series))
    (f : DataFrame) (c' : string) :
  assoc c' initial_cells = None ->
  get_col (snd (run_rows c rows f)) c' = get_col f c'.
Proof.
  intros Hc'. revert f.
  induction rows as [|it rows IH]; intros f; cbn [run_rows]; [done |].
  destruct (Series_getitem (snd it) c); [done |].
  by rewrite IH, get_col_apply_row_other.
Qed.

(** An analysis that returned: its result is a new object, which holds the
    frame the loop left, and the loop ran to its end. *)
Lemma analyze_returned (h h' : store) (df r : ref) (d out : DataFrame)
    (c : string) :
  h !! df = Some d ->
  analyze_lipinski df c h = (inr r, h') -> h' !! r = Some out ->
  h !! r = None /\ h' = <[r := out]> h
  /\ run_rows c (iterrows d) (add_columns d) = (inr tt, out).
Proof.
  intros Hdf Hrun Hout. rewrite (analyze_run h df d c Hdf) in Hrun.
  destruct (run_rows c (iterrows d) (add_columns d)) as [[e|[]] f];
    cbn [fst snd] in Hrun; [done |].
  injection Hrun as <- <-. rewrite lookup_insert_eq in Hout.
  injection Hout as ->.
  split; [apply not_elem_of_dom, is_fresh | done].
Qed.

Lemma assoc_initial_None (c : string) :
  assoc c initial_cells = None <-> ~ In c computed_columns.
Proof.
  rewrite <- assoc_not_in_list, <- in_list_In.
  fold computed_columns. by destruct (PyStr.in_list c computed_columns).
Qed.






(** The counter the loop accumulates is the number of true tests. *)
Lemma count_violations_true_tests (mol : Mol) :
  count_violations mol = true_tests mol.
Proof.
  unfold count_violations, true_tests, threshold_tests.
  by destruct (float_gt (MolWt mol) 500), (float_gt (MolLogP mol) 5),
    (NumHDonors mol >? 5)%Z, (NumHAcceptors mol >? 10)%Z.
Qed.

Lemma true_tests_range (mol : Mol) : (0 <= true_tests mol <= 4)%Z.
Proof.
  unfold true_tests, threshold_tests.
  by destruct (float_gt (MolWt mol) 500), (float_gt (MolLogP mol) 5),
    (NumHDonors mol >? 5)%Z, (NumHAcceptors mol >? 10)%Z.
Qed.


End Frame.

(** ** Rows of the result *)

Lemma sample_wf : wf_frame sample.
Proof.
  split.
  - apply (bool_decide_unpack _). by vm_compute.
  - apply (bool_decide_unpack _). by vm_compute.
  - repeat constructor.
Qed.







(** ** Counting *)

Section Counting.
Context `{RDKit}.



End Counting.

(** ** The sample runs *)

Example sample_run :
  @analyze_lipinski toy_engine 0%nat "smiles" (one_frame sample)
  = (inr 1%nat, <[1%nat := sample_result]> (one_frame sample)).
Proof. vm_compute. reflexivity. Qed.

Example weighed_run :
  @analyze_lipinski toy_engine 0%nat "smiles" (one_frame weighed)
  = (inr 1%nat, <[1%nat := weighed_result]> (one_frame weighed)).
Proof. vm_compute. reflexivity. Qed.

Example sample_second_run :
  @analyze_lipinski toy_engine 0%nat "smiles"
    (<[1%nat := sample_result]> (one_frame sample))
  = (inr 2%nat,
     <[2%nat := sample_result]> (<[1%nat := sample_result]> (one_frame sample))).
Proof. vm_compute. reflexivity. Qed.

Example sample_missing_column :
  fst (@analyze_lipinski toy_engine 0%nat "SMILES" (one_frame sample))
  = inl (KeyError "SMILES").
Proof. vm_compute. reflexivity. Qed.

(** The thresholds are strict, and a NaN descriptor violates none. *)
Example violations_at_the_bounds :
  @count_violations toy_engine (mkToy 500 5 5 10) = 0%Z
  /\ @count_violations toy_engine (mkToy 500.5 5 5 10) = 1%Z
  /\ @count_violations toy_engine (mkToy 500.5 5.5 6 11) = 4%Z
  /\ @count_violations toy_engine (mkToy nan nan 0 0) = 0%Z.
Proof. repeat split. Qed.

Example sample_statistics :
  statistics sample_result = inr (mkStats 2 5 1 1).
Proof. reflexivity. Qed.

Example computed_columns_listed :
  computed_columns
  = ["MolWt"; "LogP"; "NumHDonors"; "NumHAcceptors"; "LipinskiViolations";
     "LipinskiResult"; "SMILES_Valid"].
Proof. reflexivity. Qed.

(** ** The report *)



(** ** The columns of the result *)

Lemma filter_all {A} (p : A -> bool) (l : list A) :
  (forall x, In x l -> p x = true) -> List.filter p l = l.
Proof.
  induction l as [|a l IH]; intros Hp; [done |]. simpl.
  rewrite (Hp a) by (by left). f_equal. apply IH. intros x Hx. apply Hp.
  by right.
Qed.

(** C6, as the specification has it, fails: the computed columns do not
    come in the order of its section 3, [SMILES_Valid] is the last of them
    and not the first; and a table that has a column named [MolWt] keeps
    it where it stands, so that six columns are appended and not seven. *)
Lemma spec_column_order_refuted :
  (exists r h' out,
     @analyze_lipinski toy_engine 0%nat "smiles" (one_frame sample) = (inr r, h')
     /\ h' !! r = Some out
     /\ columns out
        = ["id"; "smiles"; "MolWt"; "LogP"; "NumHDonors"; "NumHAcceptors";
           "LipinskiViolations"; "LipinskiResult"; "SMILES_Valid"]
     /\ columns out <> columns sample ++ spec_columns)
  /\ (exists r h' out,
        @analyze_lipinski toy_engine 0%nat "smiles" (one_frame weighed)
        = (inr r, h')
        /\ h' !! r = Some out
        /\ columns out
           = ["smiles"; "MolWt"; "note"; "LogP"; "NumHDonors"; "NumHAcceptors";
              "LipinskiViolations"; "LipinskiResult"; "SMILES_Valid"]
        /\ columns out <> columns weighed ++ spec_columns).
Proof.
  split.
  - exists 1%nat, (<[1%nat := sample_result]> (one_frame sample)), sample_result.
    split; [exact sample_run |]. repeat split. discriminate.
  - exists 1%nat, (<[1%nat := weighed_result]> (one_frame weighed)), weighed_result.
    split; [exact weighed_run |]. repeat split. discriminate.
Qed.

(** C6, amended. The columns of the returned frame are the input columns,
    in their order, followed by those of MolWt, LogP, NumHDonors,
    NumHAcceptors, LipinskiViolations, LipinskiResult, SMILES_Valid, in
    this order, that are not names of input columns; when no input column
    bears one of these names, all seven follow. *)
Theorem computed_columns_appended `{RDKit} (h h' : store) (df r : ref)
    (d out : DataFrame) (smiles_col : string) :
  h !! df = Some d ->
  analyze_lipinski df smiles_col h = (inr r, h') -> h' !! r = Some out ->
  columns out
  = columns d
    ++ List.filter (fun c => negb (PyStr.in_list c (columns d)))
         ["MolWt"; "LogP"; "NumHDonors"; "NumHAcceptors";
          "LipinskiViolations"; "LipinskiResult"; "SMILES_Valid"]
  /\ ((forall c, In c computed_columns -> ~ In c (columns d)) ->
      columns out
      = columns d
        ++ ["MolWt"; "LogP"; "NumHDonors"; "NumHAcceptors";
            "LipinskiViolations"; "LipinskiResult"; "SMILES_Valid"]).
Proof.
  intros Hdf Hrun Hout.
  destruct (analyze_returned h h' df r d out smiles_col Hdf Hrun Hout)
    as (_ & _ & Hrows).
  assert (Hcols : columns out = columns (add_columns d)).
  { rewrite <- (columns_run_rows smiles_col (iterrows d) (add_columns d)).
    by rewrite Hrows. }
  rewrite Hcols, columns_add_columns. split; [done |].
  intros Hnew. f_equal. apply (filter_all _ computed_columns).
  intros c Hc. apply negb_true_iff.
  destruct (PyStr.in_list c (columns d)) eqn:E; [| done].
  apply in_list_In in E. by destruct (Hnew c Hc).
Qed.

Lemma computed_columns_appended_witness :
  one_frame weighed !! 0%nat = Some weighed
  /\ @analyze_lipinski toy_engine 0%nat "smiles" (one_frame weighed)
     = (inr 1%nat, <[1%nat := weighed_result]> (one_frame weighed))
  /\ <[1%nat := weighed_result]> (one_frame weighed) !! 1%nat
     = Some weighed_result
  /\ columns weighed_result
     = columns weighed
       ++ List.filter (fun c => negb (PyStr.in_list c (columns weighed)))
            ["MolWt"; "LogP"; "NumHDonors"; "NumHAcceptors";
             "LipinskiViolations"; "LipinskiResult"; "SMILES_Valid"]
  /\ ((forall c, In c computed_columns -> ~ In c (columns weighed)) ->
      columns weighed_result
      = columns weighed
        ++ ["MolWt"; "LogP"; "NumHDonors"; "NumHAcceptors";
            "LipinskiViolations"; "LipinskiResult"; "SMILES_Valid"]).
Proof.
  assert (H1 : one_frame weighed !! 0%nat = Some weighed) by reflexivity.
  assert (H2 : @analyze_lipinski toy_engine 0%nat "smiles" (one_frame weighed)
               = (inr 1%nat, <[1%nat := weighed_result]> (one_frame weighed)))
    by (vm_compute; reflexivity).
  assert (H3 : <[1%nat := weighed_result]> (one_frame weighed) !! 1%nat
               = Some weighed_result) by reflexivity.
  do 3 (split; [assumption |]).
  exact (@computed_columns_appended toy_engine _ _ _ _ _ _ _ H1 H2 H3).
Defined.

(** ** The input and the store *)

(** Whether it returns or raises, the analysis leaves every object of the
    store as it found it: all it adds is the copy. *)
Lemma analyze_preserves `{RDKit} (h h' : store) (df : ref) (d : DataFrame)
    (c : string) (res : exn + ref) (r' : ref) :
  h !! df = Some d -> analyze_lipinski df c h = (res, h') ->
  is_Some (h !! r') -> h' !! r' = h !! r'.
Proof.
  intros Hdf Hrun Hr'. rewrite (analyze_run h df d c Hdf) in Hrun.
  injection Hrun as _ <-. apply lookup_insert_ne. intros <-.
  apply (is_fresh (dom h)). by apply elem_of_dom.
Qed.

(** C7, as the specification has it, fails in its second half: a cell of an
    input column named like a computed column is not the input's cell in
    the returned frame. *)
Lemma original_cell_overwritten :
  exists r h' out,
    @analyze_lipinski toy_engine 0%nat "smiles" (one_frame weighed) = (inr r, h')
    /\ h' !! r = Some out
    /\ cell_at weighed "MolWt" 1 = Some (CFloat 18)
    /\ cell_at out "MolWt" 1 = Some CNone.
Proof.
  exists 1%nat, (<[1%nat := weighed_result]> (one_frame weighed)), weighed_result.
  split; [exact weighed_run | done].
Qed.

(** C7, amended. The analysis never mutates its input: whether it returns
    or raises, the input frame, like every frame the store held, is
    afterwards what it was; the frame it returns is a new object with the
    index of the input, in which every column whose name is not one of the
    seven computed names holds the cells of the input column. *)
Theorem input_untouched `{RDKit} (h h' : store) (df : ref) (d : DataFrame)
    (smiles_col : string) (res : exn + ref) :
  h !! df = Some d ->
  analyze_lipinski df smiles_col h = (res, h') ->
  h' !! df = Some d
  /\ (forall r', is_Some (h !! r') -> h' !! r' = h !! r')
  /\ (forall r out,
        res = inr r -> h' !! r = Some out ->
        h !! r = None /\ index out = index d
        /\ forall c, ~ In c computed_columns -> get_col out c = get_col d c).
Proof.
  intros Hdf Hrun. split; [| split].
  - rewrite <- Hdf. eapply analyze_preserves; eauto.
  - intros r' Hr'. eapply analyze_preserves; eauto.
  - intros r out -> Hout.
    destruct (analyze_returned h h' df r d out smiles_col Hdf Hrun Hout)
      as (Hnew & _ & Hrows).
    split; [done |]. split.
    + rewrite <- (index_add_columns d).
      rewrite <- (index_run_rows smiles_col (iterrows d) (add_columns d)).
      by rewrite Hrows.
    + intros c Hc. apply assoc_initial_None in Hc.
      pose proof (get_col_run_rows_other smiles_col (iterrows d)
                    (add_columns d) c Hc) as E.
      rewrite Hrows in E. cbn [snd] in E.
      by rewrite E, get_col_add_columns, Hc.
Qed.

Lemma input_untouched_witness :
  one_frame weighed !! 0%nat = Some weighed
  /\ @analyze_lipinski toy_engine 0%nat "smiles" (one_frame weighed)
     = (inr 1%nat, <[1%nat := weighed_result]> (one_frame weighed))
  /\ <[1%nat := weighed_result]> (one_frame weighed) !! 0%nat = Some weighed
  /\ (forall r', is_Some (one_frame weighed !! r') ->
        <[1%nat := weighed_result]> (one_frame weighed) !! r'
        = one_frame weighed !! r')
  /\ (forall r out,
        inr 1%nat = @inr exn ref r ->
        <[1%nat := weighed_result]> (one_frame weighed) !! r = Some out ->
        one_frame weighed !! r = None /\ index out = index weighed
        /\ forall c, ~ In c computed_columns ->
                     get_col out c = get_col weighed c).
Proof.
  assert (H1 : one_frame weighed !! 0%nat = Some weighed) by reflexivity.
  assert (H2 : @analyze_lipinski toy_engine 0%nat "smiles" (one_frame weighed)
               = (inr 1%nat, <[1%nat := weighed_result]> (one_frame weighed)))
    by (vm_compute; reflexivity).
  do 2 (split; [assumption |]).
  exact (@input_untouched toy_engine _ _ _ _ _ _ H1 H2).
Defined.

(** ** The rows of the result *)



(** ** Determinism *)

(** C9. The outcome of an analysis depends on the input frame, the column
    name and the engine alone: two runs on the same frame, in whatever
    stores and under whatever references, both raise the same exception
    or both return, and then the frames they return are equal. In
    particular a second run in the store the first one left returns the
    frame of the first. *)
Theorem analyze_deterministic `{RDKit} (h1 h2 h1' h2' : store)
    (df1 df2 : ref) (d : DataFrame) (smiles_col : string)
    (res1 res2 : exn + ref) :
  h1 !! df1 = Some d -> h2 !! df2 = Some d ->
  analyze_lipinski df1 smiles_col h1 = (res1, h1') ->
  analyze_lipinski df2 smiles_col h2 = (res2, h2') ->
  match res1, res2 with
  | inr r1, inr r2 =>
      exists out, h1' !! r1 = Some out /\ h2' !! r2 = Some out
  | inl e1, inl e2 => e1 = e2
  | _, _ => False
  end.
Proof.
  intros Hdf1 Hdf2 Hrun1 Hrun2.
  rewrite (analyze_run h1 df1 d smiles_col Hdf1) in Hrun1.
  rewrite (analyze_run h2 df2 d smiles_col Hdf2) in Hrun2.
  injection Hrun1 as <- <-. injection Hrun2 as <- <-.
  destruct (run_rows smiles_col (iterrows d) (add_columns d)) as [[e|u] f];
    cbn [fst snd]; [done |].
  exists f. by rewrite !lookup_insert_eq.
Qed.

Lemma analyze_deterministic_witness :
  one_frame sample !! 0%nat = Some sample
  /\ <[1%nat := sample_result]> (one_frame sample) !! 0%nat = Some sample
  /\ @analyze_lipinski toy_engine 0%nat "smiles" (one_frame sample)
     = (inr 1%nat, <[1%nat := sample_result]> (one_frame sample))
  /\ @analyze_lipinski toy_engine 0%nat "smiles"
       (<[1%nat := sample_result]> (one_frame sample))
     = (inr 2%nat,
        <[2%nat := sample_result]>
          (<[1%nat := sample_result]> (one_frame sample)))
  /\ exists out,
       <[1%nat := sample_result]> (one_frame sample) !! 1%nat = Some out
       /\ <[2%nat := sample_result]>
            (<[1%nat := sample_result]> (one_frame sample)) !! 2%nat
          = Some out.
Proof.
  assert (H1 : one_frame sample !! 0%nat = Some sample) by reflexivity.
  assert (H2 : <[1%nat := sample_result]> (one_frame sample) !! 0%nat
               = Some sample) by reflexivity.
  assert (H3 : @analyze_lipinski toy_engine 0%nat "smiles" (one_frame sample)
               = (inr 1%nat, <[1%nat := sample_result]> (one_frame sample)))
    by (vm_compute; reflexivity).
  assert (H4 : @analyze_lipinski toy_engine 0%nat "smiles"
                 (<[1%nat := sample_result]> (one_frame sample))
               = (inr 2%nat,
                  <[2%nat := sample_result]>
                    (<[1%nat := sample_result]> (one_frame sample))))
    by (vm_compute; reflexivity).
  do 4 (split; [assumption |]).
  exact (@analyze_deterministic toy_engine _ _ _ _ _ _ _ _ _ _ H1 H2 H3 H4).
Defined.

(** * Further properties of the code *)

(** ** The blank test *)

Lemma rstrip_empty (s : string) :
  PyStr.rstrip s = "" <-> Forall (fun c => PyStr.isspace c = true) (chars s).
Proof.
  induction s as [|c s IH]; cbn [PyStr.rstrip chars list_ascii_of_string].
  - split; [by constructor | done].
  - fold (chars s). destruct (PyStr.rstrip s) eqn:E.
    + destruct (PyStr.isspace c) eqn:Ec.
      * split; [| done]. intros _. constructor; [done | by apply IH].
      * split; [done |]. intros Hall. apply Forall_cons in Hall as [? _].
        congruence.
    + split; [done |]. intros Hall. apply Forall_cons in Hall as [_ Hall].
      by apply IH in Hall.
Qed.

Lemma lstrip_all_space (s : string) :
  Forall (fun c => PyStr.isspace c = true) (chars (PyStr.lstrip s))
  <-> Forall (fun c => PyStr.isspace c = true) (chars s).
Proof.
  induction s as [|c s IH]; [done |].
  cbn [PyStr.lstrip]. destruct (PyStr.isspace c) eqn:Ec; [| done].
  rewrite IH. cbn [chars list_ascii_of_string]. fold (chars s).
  rewrite Forall_cons. tauto.
Qed.

(** X1. The blank test of the loop, [not smiles.strip()], holds exactly
    for the strings all of whose characters are whitespace, the empty
    string among them. *)
Theorem blank_iff_all_space (s : string) :
  negb (PyStr.truthy (PyStr.strip s)) = true
  <-> Forall (fun c => PyStr.isspace c = true) (chars s).
Proof.
  rewrite <- lstrip_all_space, <- rstrip_empty. unfold PyStr.strip.
  destruct (PyStr.rstrip (PyStr.lstrip s)); cbn; split; done.
Qed.

(** ** What the two phases of the detection accept *)

Lemma occurs_in_longer (a b s : string) :
  occurs_in (String.append a b) s -> occurs_in a s.
Proof.
  intros (pre & post & ->). exists pre, (String.append b post).
  f_equal. clear.
  induction a as [|c a IH]; [reflexivity | exact (f_equal (String c) IH)].
Qed.

(** X2. The second phase accepts a column exactly when its lowercased name
    contains "smi" or "structure": the terms "smiles" and "smile" add
    nothing to "smi" there. *)
Theorem partial_test_smi_or_structure (col : string) :
  partial_test col = true
  <-> occurs_in "smi" (PyStr.lower col)
      \/ occurs_in "structure" (PyStr.lower col).
Proof.
  rewrite partial_test_spec. unfold substring_match, possible_names. split.
  - intros (name & Hin & Hocc). cbn in Hin.
    destruct Hin as [<- | [<- | [<- | [<- | []]]]].
    + left. by apply (occurs_in_longer "smi" "les").
    + by left.
    + left. by apply (occurs_in_longer "smi" "le").
    + by right.
  - intros [H | H]; [exists "smi" | exists "structure"];
      (split; [cbn; tauto | done]).
Qed.

Lemma sub_non_alnum_app (a b : string) :
  PyStr.sub_non_alnum (String.append a b)
  = String.append (PyStr.sub_non_alnum a) (PyStr.sub_non_alnum b).
Proof.
  induction a as [|c a IH]; [reflexivity |].
  change (PyStr.sub_non_alnum (String c (String.append a b))
          = String.append (PyStr.sub_non_alnum (String c a))
              (PyStr.sub_non_alnum b)).
  cbn [PyStr.sub_non_alnum]. rewrite IH.
  by destruct (PyStr.is_alnum c).
Qed.

(** X3. The first phase does not see the characters outside [a-zA-Z0-9]:
    a column name with such a character inserted anywhere matches in
    phase 1 exactly when the name without it does. *)
Theorem exact_test_skips_non_alnum (pre post : string) (c : ascii) :
  PyStr.is_alnum c = false ->
  exact_test (String.append pre (String c post))
  = exact_test (String.append pre post).
Proof.
  intros Hc. unfold exact_test. rewrite !sub_non_alnum_app.
  cbn [PyStr.sub_non_alnum]. by rewrite Hc.
Qed.

Lemma exact_test_skips_non_alnum_witness :
  PyStr.is_alnum " " = false
  /\ exact_test (String.append "SMI" (String " " "LES"))
     = exact_test (String.append "SMI" "LES").
Proof.
  assert (H1 : PyStr.is_alnum " " = false) by reflexivity.
  split; [assumption |].
  exact (exact_test_skips_non_alnum "SMI" "LES" " " H1).
Defined.

(** ** Letter case *)

Lemma is_alnum_lower_char (c : ascii) :
  PyStr.is_alnum (PyStr.lower_char c) = PyStr.is_alnum c.
Proof.
  destruct c as [[] [] [] [] [] [] [] []]; vm_compute; reflexivity.
Qed.

Lemma lower_sub_non_alnum (s : string) :
  PyStr.lower (PyStr.sub_non_alnum s) = PyStr.sub_non_alnum (PyStr.lower s).
Proof.
  induction s as [|c s IH]; [done |].
  cbn [PyStr.lower PyStr.sub_non_alnum]. rewrite is_alnum_lower_char.
  destruct (PyStr.is_alnum c); cbn [PyStr.lower]; by rewrite IH.
Qed.

Lemma tests_read_lowercase (a b : string) :
  PyStr.lower a = PyStr.lower b ->
  exact_test a = exact_test b /\ partial_test a = partial_test b.
Proof.
  intros Hab. unfold exact_test, partial_test.
  by rewrite !lower_sub_non_alnum, Hab.
Qed.

Lemma first_col_Forall2 (R : string -> string -> Prop)
    (test : string -> bool) (cs cs' : list string) :
  (forall a b, R a b -> test a = test b) ->
  Forall2 R cs cs' ->
  match first_col test cs, first_col test cs' with
  | Some c, Some c' => exists i, cs !! i = Some c /\ cs' !! i = Some c'
  | None, None => True
  | _, _ => False
  end.
Proof.
  intros HR Hcs. induction Hcs as [|a b cs cs' Hab Hcs IH]; [done |].
  cbn [first_col]. rewrite <- (HR a b Hab). destruct (test a).
  - by exists 0%nat.
  - destruct (first_col test cs), (first_col test cs'); try done.
    destruct IH as (i & ? & ?). by exists (S i).
Qed.

(** X4. On column names made of characters below code point 256, the
    strings of this model, the detection does not depend on letter case:
    on two frames whose column names are, position by position, equal once
    lowercased, it raises on both or it returns on both, and then the
    columns it returns stand at one and the same position. (Above code
    point 256 lowercasing is not character by character and the property
    fails: a capital I with a dot lowercases to an i and a combining dot.) *)
Theorem detect_case_insensitive (df df' : DataFrame) :
  Forall2 (fun a b => PyStr.lower a = PyStr.lower b)
          (columns df) (columns df') ->
  match detect_smiles_column df, detect_smiles_column df' with
  | inr c, inr c' =>
      exists i, columns df !! i = Some c /\ columns df' !! i = Some c'
  | inl e, inl e' => e = e'
  | _, _ => False
  end.
Proof.
  intros Hcs. unfold detect_smiles_column.
  pose proof (first_col_Forall2 _ exact_test _ _
                (fun a b H => proj1 (tests_read_lowercase a b H)) Hcs) as H1.
  pose proof (first_col_Forall2 _ partial_test _ _
                (fun a b H => proj2 (tests_read_lowercase a b H)) Hcs) as H2.
  destruct (first_col exact_test (columns df)),
    (first_col exact_test (columns df')); try done.
  destruct (first_col partial_test (columns df)),
    (first_col partial_test (columns df')); done.
Qed.

Lemma detect_case_insensitive_witness :
  Forall2 (fun a b => PyStr.lower a = PyStr.lower b)
          (columns (mkFrame [] [("ID", []); ("Smiles", [])]))
          (columns (mkFrame [] [("id", []); ("SMILES", [])]))
  /\ exists i,
       columns (mkFrame [] [("ID", []); ("Smiles", [])]) !! i = Some "Smiles"
       /\ columns (mkFrame [] [("id", []); ("SMILES", [])]) !! i
          = Some "SMILES".
Proof.
  assert (H1 : Forall2 (fun a b => PyStr.lower a = PyStr.lower b)
                 (columns (mkFrame [] [("ID", []); ("Smiles", [])]))
                 (columns (mkFrame [] [("id", []); ("SMILES", [])])))
    by (repeat constructor).
  split; [assumption |].
  exact (detect_case_insensitive _ _ H1).
Defined.

(** ** The caller's default selection *)

Lemma get_loc_lookup (cs : list string) (c : string) :
  In c cs -> exists i, get_loc cs c = inr i /\ cs !! i = Some c.
Proof.
  induction cs as [|x cs IH]; [done |]. intros Hc. cbn [get_loc].
  destruct (String.eqb_spec x c) as [->|Hne]; [by exists 0%nat |].
  destruct Hc as [? | Hc]; [done |].
  destruct (IH Hc) as (i & -> & Hi). by exists (S i).
Qed.

Lemma detect_In (df : DataFrame) (c : string) :
  detect_smiles_column df = inr c -> In c (columns df).
Proof.
  unfold detect_smiles_column.
  destruct (first_col exact_test (columns df)) as [c1|] eqn:E1.
  - intros [= <-]. eapply first_col_In, E1.
  - destruct (first_col partial_test (columns df)) as [c2|] eqn:E2; [| done].
    intros [= <-]. eapply first_col_In, E2.
Qed.

(** X5. In [app.py] the select box opens on the detected column: when the
    detection returns, the [get_loc] of what it returned among the column
    names, which are distinct, is a position, never a [KeyError], and the
    option at that position is the detected column. *)
Theorem default_selection (df : DataFrame) (c : string) :
  NoDup (columns df) ->
  detect_smiles_column df = inr c ->
  exists i, get_loc (columns df) c = inr i /\ columns df !! i = Some c.
Proof. intros _ Hc. by apply get_loc_lookup, detect_In. Qed.

Lemma default_selection_witness :
  NoDup (columns sample)
  /\ detect_smiles_column sample = inr "smiles"
  /\ exists i, get_loc (columns sample) "smiles" = inr i
               /\ columns sample !! i = Some "smiles".
Proof.
  assert (H1 : NoDup (columns sample)) by exact (wf_names _ sample_wf).
  assert (H2 : detect_smiles_column sample = inr "smiles") by reflexivity.
  do 2 (split; [assumption |]).
  exact (default_selection sample "smiles" H1 H2).
Defined.

(** ** When the analysis raises *)

Lemma get_col_None_iff (d : DataFrame) (c : string) :
  get_col d c = None <-> ~ In c (columns d).
Proof.
  unfold get_col, columns. rewrite <- assoc_not_in_list, <- in_list_In.
  by destruct (PyStr.in_list c (map fst (cols d))).
Qed.

Lemma get_col_Some_iff (d : DataFrame) (c : string) :
  is_Some (get_col d c) <-> In c (columns d).
Proof. unfold get_col, columns. by rewrite <- assoc_in_list, in_list_In. Qed.

(** X6. On a well-formed table the analysis raises in one case only: the
    table has rows and no column of the given name, and what it raises
    then is the [KeyError] of that name, from the lookup in the first row.
    With the column it returns; so it does on a table without rows,
    whatever the name. *)
Theorem analyze_raises_iff_missing `{RDKit} (h : store) (df : ref)
    (d : DataFrame) (smiles_col : string) (e : exn) :
  h !! df = Some d -> wf_frame d ->
  fst (analyze_lipinski df smiles_col h) = inl e
  <-> e = KeyError smiles_col /\ ~ In smiles_col (columns d) /\ index d <> [].
Proof.
  intros Hdf Hwf. rewrite (analyze_run h df d smiles_col Hdf). cbn [fst].
  destruct (get_col d smiles_col) as [data|] eqn:Hc.
  - destruct (run_rows_all d smiles_col data Hwf Hc) as (out & -> & _).
    cbn [fst]. split; [done |]. intros (_ & Hno & _).
    apply get_col_None_iff in Hno. congruence.
  - rewrite (run_rows_no_column d smiles_col Hc). cbn [fst].
    apply get_col_None_iff in Hc.
    destruct (index d); split; try done.
    + by intros (_ & _ & ?).
    + by intros [= <-].
    + by intros (-> & _).
Qed.

Lemma analyze_raises_iff_missing_witness :
  one_frame sample !! 0%nat = Some sample /\ wf_frame sample
  /\ (fst (@analyze_lipinski toy_engine 0%nat "SMILES" (one_frame sample))
      = inl (KeyError "SMILES")
      <-> KeyError "SMILES" = KeyError "SMILES"
          /\ ~ In "SMILES" (columns sample) /\ index sample <> []).
Proof.
  assert (H1 : one_frame sample !! 0%nat = Some sample) by reflexivity.
  assert (H2 : wf_frame sample) by exact sample_wf.
  do 2 (split; [assumption |]).
  exact (@analyze_raises_iff_missing toy_engine _ _ _ "SMILES"
           (KeyError "SMILES") H1 H2).
Defined.

(** X7. The default run of [app.py] goes through: on a well-formed table on
    which the detection returns a column, the analysis of that column
    returns a frame. *)
Theorem detected_column_analyzes `{RDKit} (h : store) (df : ref)
    (d : DataFrame) (c : string) :
  h !! df = Some d -> wf_frame d ->
  detect_smiles_column d = inr c ->
  exists r out,
    analyze_lipinski df c h = (inr r, <[r := out]> h)
    /\ h !! r = None /\ index out = index d.
Proof.
  intros Hdf Hwf Hc. apply detect_In, get_col_Some_iff in Hc as [data Hc].
  destruct (run_rows_all d c data Hwf Hc) as (out & Hrun & Hidx & _).
  exists (fresh (dom h)), out.
  rewrite (analyze_run h df d c Hdf), Hrun. cbn [fst snd].
  split; [done |]. split; [apply not_elem_of_dom, is_fresh | done].
Qed.

Lemma detected_column_analyzes_witness :
  one_frame sample !! 0%nat = Some sample /\ wf_frame sample
  /\ detect_smiles_column sample = inr "smiles"
  /\ exists r out,
       @analyze_lipinski toy_engine 0%nat "smiles" (one_frame sample)
       = (inr r, <[r := out]> (one_frame sample))
       /\ one_frame sample !! r = None /\ index out = index sample.
Proof.
  assert (H1 : one_frame sample !! 0%nat = Some sample) by reflexivity.
  assert (H2 : wf_frame sample) by exact sample_wf.
  assert (H3 : detect_smiles_column sample = inr "smiles") by reflexivity.
  do 3 (split; [assumption |]).
  exact (@detected_column_analyzes toy_engine _ _ _ _ H1 H2 H3).
Defined.

(** ** Detection on a result *)

Lemma first_col_app (test : string -> bool) (l1 l2 : list string) :
  first_col test (l1 ++ l2)
  = match first_col test l1 with
    | Some c => Some c
    | None => first_col test l2
    end.
Proof.
  induction l1 as [|x l1 IH]; [done |]. cbn. by destruct (test x).
Qed.

Lemma first_col_head (test : string -> bool) (l : list string) :
  first_col test l = head (List.filter test l).
Proof.
  induction l as [|x l IH]; [done |]. cbn. by destruct (test x).
Qed.

Lemma filter_filter_comm {A} (p q : A -> bool) (l : list A) :
  List.filter p (List.filter q l) = List.filter q (List.filter p l).
Proof.
  induction l as [|x l IH]; [done |]. cbn.
  destruct (p x) eqn:Ep, (q x) eqn:Eq; cbn; rewrite ?Ep, ?Eq, IH; done.
Qed.

(** X8. Detection on the frame an analysis returned never raises: it finds
    the column it finds on the input, and where it finds none on the
    input it settles on the computed column [SMILES_Valid], whose name
    contains "smiles". *)
Theorem detect_on_result `{RDKit} (h h' : store) (df r : ref)
    (d out : DataFrame) (smiles_col : string) :
  h !! df = Some d ->
  analyze_lipinski df smiles_col h = (inr r, h') -> h' !! r = Some out ->
  detect_smiles_column out
  = match detect_smiles_column d with
    | inr c => inr c
    | inl _ => inr "SMILES_Valid"
    end.
Proof.
  intros Hdf Hrun Hout.
  destruct (analyze_returned h h' df r d out smiles_col Hdf Hrun Hout)
    as (_ & _ & Hrows).
  assert (Hcols : columns out = columns (add_columns d)).
  { rewrite <- (columns_run_rows smiles_col (iterrows d) (add_columns d)).
    by rewrite Hrows. }
  unfold detect_smiles_column.
  rewrite Hcols, columns_add_columns, !first_col_app.
  set (p := fun c => negb (PyStr.in_list c (columns d))).
  assert (He : first_col exact_test (List.filter p computed_columns) = None).
  { by rewrite first_col_head, filter_filter_comm. }
  assert (Hp : first_col partial_test (List.filter p computed_columns)
               = if p "SMILES_Valid" then Some "SMILES_Valid" else None).
  { rewrite first_col_head, filter_filter_comm.
    change (List.filter partial_test computed_columns) with ["SMILES_Valid"].
    cbn [List.filter]. by destruct (p "SMILES_Valid"). }
  rewrite He, Hp.
  destruct (first_col exact_test (columns d)); [done |].
  destruct (first_col partial_test (columns d)) eqn:E2; [done |].
  assert (Hnew : p "SMILES_Valid" = true); [| by rewrite Hnew].
  unfold p. apply negb_true_iff.
  destruct (PyStr.in_list "SMILES_Valid" (columns d)) eqn:E; [| done].
  apply in_list_In in E.
  pose proof (proj1 (first_col_None _ _) E2 _ E) as Hf.
  vm_compute in Hf. discriminate Hf.
Qed.

Lemma detect_on_result_witness :
  one_frame sample !! 0%nat = Some sample
  /\ @analyze_lipinski toy_engine 0%nat "smiles" (one_frame sample)
     = (inr 1%nat, <[1%nat := sample_result]> (one_frame sample))
  /\ <[1%nat := sample_result]> (one_frame sample) !! 1%nat
     = Some sample_result
  /\ detect_smiles_column sample_result = inr "smiles".
Proof.
  assert (H1 : one_frame sample !! 0%nat = Some sample) by reflexivity.
  assert (H2 : @analyze_lipinski toy_engine 0%nat "smiles" (one_frame sample)
               = (inr 1%nat, <[1%nat := sample_result]> (one_frame sample)))
    by (vm_compute; reflexivity).
  assert (H3 : <[1%nat := sample_result]> (one_frame sample) !! 1%nat
               = Some sample_result) by reflexivity.
  do 3 (split; [assumption |]).
  exact (@detect_on_result toy_engine _ _ _ _ _ _ _ H1 H2 H3).
Defined.

(** ** The shape of a result row *)

(** The seven computed columns of a result, as maps over the SMILES
    column of the input. *)
Lemma computed_column_map `{RDKit} (h h' : store) (df r : ref)
    (d out : DataFrame) (smiles_col : string) (c : string) (v0 : cell) :
  h !! df = Some d -> wf_frame d ->
  analyze_lipinski df smiles_col h = (inr r, h') -> h' !! r = Some out ->
  assoc c initial_cells = Some v0 ->
  length (smiles_cells d smiles_col) = len d
  /\ get_col out c
     = Some (map (fun x => default v0 (outcome c x)) (smiles_cells d smiles_col)).
Proof.
  intros Hdf Hwf Hrun Hout Hc.
  destruct (analyze_returned h h' df r d out smiles_col Hdf Hrun Hout)
    as (_ & _ & Hrows).
  destruct (run_rows_returned d smiles_col out Hwf Hrows)
    as (Hlen & _ & _ & _ & Hcomp).
  split; [done | by apply Hcomp].
Qed.

(** X9. Every row of the frame an analysis of a well-formed table returned
    has one of two shapes. Either it is marked valid, its four descriptor
    cells hold numbers, its violation count is between 0 and 4 and its
    result is "Pass" for the count 0 and "Fail" for any other; or it is
    marked invalid, its four descriptor cells are [None], its count is 0
    and its result is "Invalid SMILES". *)
Theorem result_row_shape `{RDKit} (h h' : store) (df r : ref)
    (d out : DataFrame) (smiles_col : string) (i : nat) :
  h !! df = Some d -> wf_frame d ->
  analyze_lipinski df smiles_col h = (inr r, h') -> h' !! r = Some out ->
  i < len d ->
  (exists (mw logp : float) (donors acceptors v : Z),
     cell_at out "SMILES_Valid" i = Some (CBool true)
     /\ cell_at out "MolWt" i = Some (CFloat mw)
     /\ cell_at out "LogP" i = Some (CFloat logp)
     /\ cell_at out "NumHDonors" i = Some (CInt donors)
     /\ cell_at out "NumHAcceptors" i = Some (CInt acceptors)
     /\ cell_at out "LipinskiViolations" i = Some (CInt v)
     /\ (0 <= v <= 4)%Z
     /\ cell_at out "LipinskiResult" i
        = Some (CStr (if (v =? 0)%Z then "Pass" else "Fail")))
  \/ (cell_at out "SMILES_Valid" i = Some (CBool false)
      /\ cell_at out "MolWt" i = Some CNone
      /\ cell_at out "LogP" i = Some CNone
      /\ cell_at out "NumHDonors" i = Some CNone
      /\ cell_at out "NumHAcceptors" i = Some CNone
      /\ cell_at out "LipinskiViolations" i = Some (CInt 0)
      /\ cell_at out "LipinskiResult" i = Some (CStr "Invalid SMILES")).
Proof.
  intros Hdf Hwf Hrun Hout Hi.
  pose proof (fun c v0 => computed_column_map h h' df r d out smiles_col c v0
                            Hdf Hwf Hrun Hout) as Hcol.
  destruct (Hcol "SMILES_Valid" _ eq_refl) as (Hlen & Hvalid).
  destruct (lookup_lt_is_Some_2 (smiles_cells d smiles_col) i) as [x Hx];
    [lia |].
  unfold cell_at.
  rewrite Hvalid,
    (proj2 (Hcol "MolWt" _ eq_refl)), (proj2 (Hcol "LogP" _ eq_refl)),
    (proj2 (Hcol "NumHDonors" _ eq_refl)),
    (proj2 (Hcol "NumHAcceptors" _ eq_refl)),
    (proj2 (Hcol "LipinskiViolations" _ eq_refl)),
    (proj2 (Hcol "LipinskiResult" _ eq_refl)).
  rewrite !list_lookup_fmap, Hx. cbn [fmap option_fmap option_map].
  unfold outcome, row_cells. destruct (parse_cell x) as [mol|].
  - left. exists (MolWt mol), (MolLogP mol), (NumHDonors mol),
      (NumHAcceptors mol), (count_violations mol).
    repeat (split; [done |]). split; [| done].
    rewrite count_violations_true_tests. apply true_tests_range.
  - right. done.
Qed.

Lemma result_row_shape_witness :
  one_frame sample !! 0%nat = Some sample /\ wf_frame sample
  /\ @analyze_lipinski toy_engine 0%nat "smiles" (one_frame sample)
     = (inr 1%nat, <[1%nat := sample_result]> (one_frame sample))
  /\ <[1%nat := sample_result]> (one_frame sample) !! 1%nat
     = Some sample_result
  /\ 3 < len sample
  /\ ((exists (mw logp : float) (donors acceptors v : Z),
         cell_at sample_result "SMILES_Valid" 3 = Some (CBool true)
         /\ cell_at sample_result "MolWt" 3 = Some (CFloat mw)
         /\ cell_at sample_result "LogP" 3 = Some (CFloat logp)
         /\ cell_at sample_result "NumHDonors" 3 = Some (CInt donors)
         /\ cell_at sample_result "NumHAcceptors" 3 = Some (CInt acceptors)
         /\ cell_at sample_result "LipinskiViolations" 3 = Some (CInt v)
         /\ (0 <= v <= 4)%Z
         /\ cell_at sample_result "LipinskiResult" 3
            = Some (CStr (if (v =? 0)%Z then "Pass" else "Fail")))
      \/ (cell_at sample_result "SMILES_Valid" 3 = Some (CBool false)
          /\ cell_at sample_result "MolWt" 3 = Some CNone
          /\ cell_at sample_result "LogP" 3 = Some CNone
          /\ cell_at sample_result "NumHDonors" 3 = Some CNone
          /\ cell_at sample_result "NumHAcceptors" 3 = Some CNone
          /\ cell_at sample_result "LipinskiViolations" 3 = Some (CInt 0)
          /\ cell_at sample_result "LipinskiResult" 3
             = Some (CStr "Invalid SMILES"))).
Proof.
  assert (H1 : one_frame sample !! 0%nat = Some sample) by reflexivity.
  assert (H2 : wf_frame sample) by exact sample_wf.
  assert (H3 : @analyze_lipinski toy_engine 0%nat "smiles" (one_frame sample)
               = (inr 1%nat, <[1%nat := sample_result]> (one_frame sample)))
    by (vm_compute; reflexivity).
  assert (H4 : <[1%nat := sample_result]> (one_frame sample) !! 1%nat
               = Some sample_result) by reflexivity.
  assert (H5 : 3 < len sample) by (vm_compute; lia).
  do 5 (split; [assumption |]).
  exact (@result_row_shape toy_engine _ _ _ _ _ _ _ 3 H1 H2 H3 H4 H5).
Defined.

(** ** The statistics, read off the input *)

Section Statistics.
Context `{RDKit}.

Lemma valid_count (data : list cell) :
  Series_sum (map (fun x => default (CBool false) (outcome "SMILES_Valid" x)) data)
  = length (List.filter row_valid data).
Proof.
  unfold Series_sum, outcome, row_cells, row_valid.
  induction data as [|x data IH]; [done |].
  cbn [map List.filter]. destruct (parse_cell x); cbn; by rewrite IH.
Qed.

Lemma pass_count_rows (data : list cell) :
  Series_sum
    (Series_eq
       (map (fun x => default (CStr "Invalid SMILES")
                        (outcome "LipinskiResult" x)) data) "Pass")
  = length (List.filter row_passes data).
Proof.
  unfold Series_sum, Series_eq, outcome, row_cells, row_passes.
  induction data as [|x data IH]; [done |].
  cbn [map List.filter]. destruct (parse_cell x) as [mol|]; cbn.
  - destruct (count_violations mol =? 0)%Z; cbn; by rewrite IH.
  - by rewrite IH.
Qed.

Lemma fail_count_rows (data : list cell) :
  Series_sum
    (Series_eq
       (map (fun x => default (CStr "Invalid SMILES")
                        (outcome "LipinskiResult" x)) data) "Fail")
  = length (List.filter row_fails data).
Proof.
  unfold Series_sum, Series_eq, outcome, row_cells, row_fails.
  induction data as [|x data IH]; [done |].
  cbn [map List.filter]. destruct (parse_cell x) as [mol|]; cbn.
  - destruct (count_violations mol =? 0)%Z; cbn; by rewrite IH.
  - by rewrite IH.
Qed.

Lemma statistics_of_rows (d out : DataFrame) (smiles_col : string) :
  wf_frame d ->
  run_rows smiles_col (iterrows d) (add_columns d) = (inr tt, out) ->
  statistics out
  = inr (mkStats (length (List.filter row_valid (smiles_cells d smiles_col)))
                 (len d)
                 (length (List.filter row_passes (smiles_cells d smiles_col)))
                 (length (List.filter row_fails (smiles_cells d smiles_col)))).
Proof.
  intros Hwf Hrows.
  destruct (run_rows_returned d smiles_col out Hwf Hrows)
    as (_ & Hidx & _ & _ & Hcomp).
  unfold statistics, getitem.
  rewrite (Hcomp "SMILES_Valid" _ eq_refl), (Hcomp "LipinskiResult" _ eq_refl).
  rewrite valid_count, pass_count_rows, fail_count_rows.
  unfold len. by rewrite Hidx.
Qed.

End Statistics.

(** X10. For a well-formed table, one whose row labels are distinct (and
    whose column names are distinct, with one cell per row in every
    column), the four numbers [app.py] shows are counts over the input:
    the total is the number of rows, the valid count the number of rows
    whose SMILES cell is a non-blank string the parser accepts, the pass
    count the number of those without a violation and the fail count the
    number of those with one. *)
Theorem statistics_count_input `{RDKit} (h h' : store) (df r : ref)
    (d out : DataFrame) (smiles_col : string) :
  h !! df = Some d -> wf_frame d ->
  analyze_lipinski df smiles_col h = (inr r, h') -> h' !! r = Some out ->
  statistics out
  = inr (mkStats (length (List.filter row_valid (smiles_cells d smiles_col)))
                 (len d)
                 (length (List.filter row_passes (smiles_cells d smiles_col)))
                 (length (List.filter row_fails (smiles_cells d smiles_col)))).
Proof.
  intros Hdf Hwf Hrun Hout.
  destruct (analyze_returned h h' df r d out smiles_col Hdf Hrun Hout)
    as (_ & _ & Hrows).
  by apply statistics_of_rows.
Qed.

Lemma statistics_count_input_witness :
  one_frame sample !! 0%nat = Some sample /\ wf_frame sample
  /\ @analyze_lipinski toy_engine 0%nat "smiles" (one_frame sample)
     = (inr 1%nat, <[1%nat := sample_result]> (one_frame sample))
  /\ <[1%nat := sample_result]> (one_frame sample) !! 1%nat
     = Some sample_result
  /\ statistics sample_result = inr (mkStats 2 5 1 1).
Proof.
  assert (H1 : one_frame sample !! 0%nat = Some sample) by reflexivity.
  assert (H2 : wf_frame sample) by exact sample_wf.
  assert (H3 : @analyze_lipinski toy_engine 0%nat "smiles" (one_frame sample)
               = (inr 1%nat, <[1%nat := sample_result]> (one_frame sample)))
    by (vm_compute; reflexivity).
  assert (H4 : <[1%nat := sample_result]> (one_frame sample) !! 1%nat
               = Some sample_result) by reflexivity.
  do 4 (split; [assumption |]).
  exact (@statistics_count_input toy_engine _ _ _ _ _ _ _ H1 H2 H3 H4).
Defined.

Lemma filter_length_Permutation {A} (p : A -> bool) (l1 l2 : list A) :
  l1 ≡ₚ l2 -> length (List.filter p l1) = length (List.filter p l2).
Proof.
  induction 1 as [|x l1 l2 _ IH|x y l|l1 l2 l3 _ IH1 _ IH2]; cbn.
  - done.
  - destruct (p x); cbn; by rewrite IH.
  - by destruct (p x), (p y).
  - congruence.
Qed.

(** X11. The statistics do not depend on the order of the rows, nor on any
    column but the SMILES column: two well-formed tables whose SMILES
    columns hold the same cells in some order have the same four numbers. *)
Theorem statistics_row_order `{RDKit} (h1 h1' h2 h2' : store)
    (df1 r1 df2 r2 : ref) (d1 out1 d2 out2 : DataFrame) (c1 c2 : string) :
  h1 !! df1 = Some d1 -> wf_frame d1 ->
  analyze_lipinski df1 c1 h1 = (inr r1, h1') -> h1' !! r1 = Some out1 ->
  h2 !! df2 = Some d2 -> wf_frame d2 ->
  analyze_lipinski df2 c2 h2 = (inr r2, h2') -> h2' !! r2 = Some out2 ->
  smiles_cells d1 c1 ≡ₚ smiles_cells d2 c2 ->
  statistics out1 = statistics out2.
Proof.
  intros Hdf1 Hwf1 Hrun1 Hout1 Hdf2 Hwf2 Hrun2 Hout2 Hperm.
  destruct (analyze_returned h1 h1' df1 r1 d1 out1 c1 Hdf1 Hrun1 Hout1)
    as (_ & _ & Hrows1).
  destruct (analyze_returned h2 h2' df2 r2 d2 out2 c2 Hdf2 Hrun2 Hout2)
    as (_ & _ & Hrows2).
  rewrite (statistics_of_rows d1 out1 c1 Hwf1 Hrows1).
  rewrite (statistics_of_rows d2 out2 c2 Hwf2 Hrows2).
  assert (Hlen : len d1 = len d2).
  { destruct (computed_column_map h1 h1' df1 r1 d1 out1 c1 "SMILES_Valid" _
                Hdf1 Hwf1 Hrun1 Hout1 eq_refl) as [<- _].
    destruct (computed_column_map h2 h2' df2 r2 d2 out2 c2 "SMILES_Valid" _
                Hdf2 Hwf2 Hrun2 Hout2 eq_refl) as [<- _].
    by apply Permutation_length. }
  by rewrite Hlen, !(filter_length_Permutation _ _ _ Hperm).
Qed.

Lemma reversed_wf : wf_frame reversed.
Proof.
  split.
  - apply (bool_decide_unpack _). by vm_compute.
  - apply (bool_decide_unpack _). by vm_compute.
  - repeat constructor.
Qed.

Lemma statistics_row_order_witness :
  one_frame sample !! 0%nat = Some sample /\ wf_frame sample
  /\ @analyze_lipinski toy_engine 0%nat "smiles" (one_frame sample)
     = (inr 1%nat, <[1%nat := sample_result]> (one_frame sample))
  /\ <[1%nat := sample_result]> (one_frame sample) !! 1%nat
     = Some sample_result
  /\ one_frame reversed !! 0%nat = Some reversed /\ wf_frame reversed
  /\ @analyze_lipinski toy_engine 0%nat "SMILES" (one_frame reversed)
     = (inr 1%nat, <[1%nat := reversed_result]> (one_frame reversed))
  /\ <[1%nat := reversed_result]> (one_frame reversed) !! 1%nat
     = Some reversed_result
  /\ smiles_cells sample "smiles" ≡ₚ smiles_cells reversed "SMILES"
  /\ statistics sample_result = statistics reversed_result.
Proof.
  assert (H1 : one_frame sample !! 0%nat = Some sample) by reflexivity.
  assert (H2 : wf_frame sample) by exact sample_wf.
  assert (H3 : @analyze_lipinski toy_engine 0%nat "smiles" (one_frame sample)
               = (inr 1%nat, <[1%nat := sample_result]> (one_frame sample)))
    by (vm_compute; reflexivity).
  assert (H4 : <[1%nat := sample_result]> (one_frame sample) !! 1%nat
               = Some sample_result) by reflexivity.
  assert (H5 : one_frame reversed !! 0%nat = Some reversed) by reflexivity.
  assert (H6 : wf_frame reversed) by exact reversed_wf.
  assert (H7 : @analyze_lipinski toy_engine 0%nat "SMILES" (one_frame reversed)
               = (inr 1%nat, <[1%nat := reversed_result]> (one_frame reversed)))
    by (vm_compute; reflexivity).
  assert (H8 : <[1%nat := reversed_result]> (one_frame reversed) !! 1%nat
               = Some reversed_result) by reflexivity.
  assert (H9 : smiles_cells sample "smiles" ≡ₚ smiles_cells reversed "SMILES")
    by exact (reverse_Permutation (smiles_cells reversed "SMILES")).
  do 9 (split; [assumption |]).
  exact (@statistics_row_order toy_engine _ _ _ _ _ _ _ _ _ _ _ _ _ _
           H1 H2 H3 H4 H5 H6 H7 H8 H9).
Defined.

(** ** Analyzing a result again *)

Lemma NoDup_list_filter {A} (p : A -> bool) (l : list A) :
  NoDup l -> NoDup (List.filter p l).
Proof.
  induction 1 as [|x l Hx Hl IH]; cbn; [constructor |].
  destruct (p x); [| done]. constructor; [| done].
  rewrite list_elem_of_In, filter_In, <- list_elem_of_In. tauto.
Qed.

Lemma filter_none {A} (p : A -> bool) (l : list A) :
  (forall x, In x l -> p x = false) -> List.filter p l = [].
Proof.
  induction l as [|a l IH]; intros Hp; [done |]. cbn.
  rewrite (Hp a) by (by left). apply IH. intros x Hx. apply Hp. by right.
Qed.

Lemma assoc_of_elem {A} (k : string) (a : A) (l : list (string * A)) :
  NoDup (map fst l) -> (k, a) ∈ l -> assoc k l = Some a.
Proof.
  induction l as [|[n b] l IH]; cbn; intros Hnd Hin; [by inversion Hin |].
  apply NoDup_cons in Hnd as [Hn Hnd].
  apply elem_of_cons in Hin as [[= -> ->] | Hin].
  - by rewrite String.eqb_refl.
  - destruct (String.eqb_spec n k) as [->|]; [| by apply IH].
    destruct Hn. apply list_elem_of_fmap. by exists (k, a).
Qed.

(** Named columns are what their names give access to. *)
Lemma assoc_ext {A} (l1 l2 : list (string * A)) :
  map fst l1 = map fst l2 -> NoDup (map fst l1) ->
  (forall k, assoc k l1 = assoc k l2) -> l1 = l2.
Proof.
  revert l2. induction l1 as [|[n a] l1 IH]; intros [|[m b] l2]; cbn;
    try done.
  intros [= -> Hnames] Hnd Hassoc.
  apply NoDup_cons in Hnd as [Hm Hnd].
  pose proof (Hassoc m) as Hm'. rewrite String.eqb_refl in Hm'.
  injection Hm' as ->. f_equal. apply IH; [done | done |].
  intros k. specialize (Hassoc k).
  destruct (String.eqb_spec m k) as [Heq|]; [| done]. subst k.
  rewrite !assoc_None_fresh; [done | by rewrite <- Hnames | done].
Qed.

Section Again.
Context `{RDKit}.

(** The frame the loop leaves on a well-formed table is well-formed. *)
Lemma wf_result (d out : DataFrame) (c : string) :
  wf_frame d ->
  run_rows c (iterrows d) (add_columns d) = (inr tt, out) ->
  wf_frame out.
Proof.
  intros Hwf Hrows.
  destruct (run_rows_returned d c out Hwf Hrows)
    as (Hlen & Hidx & Hcols & Hother & Hcomp).
  assert (Hnames : NoDup (columns out)).
  { rewrite Hcols, columns_add_columns. apply NoDup_app.
    split; [apply Hwf |]. split.
    - intros x Hx. rewrite list_elem_of_In, filter_In.
      intros [_ Hp]. apply negb_true_iff in Hp.
      apply list_elem_of_In, in_list_In in Hx. congruence.
    - apply NoDup_list_filter, computed_columns_NoDup. }
  split; [rewrite Hidx; apply Hwf | done |].
  apply Forall_forall. intros [n data] Hin. cbn [snd].
  apply (assoc_of_elem n data (cols out) Hnames) in Hin.
  fold (get_col out n) in Hin. unfold len. rewrite Hidx. fold (len d).
  destruct (assoc n initial_cells) as [v0|] eqn:Hn.
  - rewrite (Hcomp n v0 Hn) in Hin. injection Hin as <-.
    by rewrite length_map.
  - rewrite (Hother n Hn) in Hin. by eapply wf_column_length.
Qed.

(** All seven computed names are columns once the assignments are done. *)
Lemma computed_in_result (d : DataFrame) (c : string) :
  In c computed_columns -> In c (columns (add_columns d)).
Proof.
  intros Hc. rewrite columns_add_columns. apply in_or_app.
  destruct (PyStr.in_list c (columns d)) eqn:E.
  - left. by apply in_list_In.
  - right. apply filter_In. split; [done | by rewrite E].
Qed.

End Again.

(** X12. Analyzing a result once more changes nothing: on the frame that
    the analysis of a well-formed table returned, a second analysis by the
    same column, a column of the input whose name is not a computed name,
    returns an equal frame, as a new object. *)
Theorem reanalysis_fixpoint `{RDKit} (h h' : store) (df r : ref)
    (d out : DataFrame) (smiles_col : string) :
  h !! df = Some d -> wf_frame d ->
  In smiles_col (columns d) -> ~ In smiles_col computed_columns ->
  analyze_lipinski df smiles_col h = (inr r, h') -> h' !! r = Some out ->
  exists r2,
    analyze_lipinski r smiles_col h' = (inr r2, <[r2 := out]> h')
    /\ h' !! r2 = None.
Proof.
  intros Hdf Hwf Hin Hnew Hrun Hout.
  destruct (analyze_returned h h' df r d out smiles_col Hdf Hrun Hout)
    as (_ & _ & Hrows).
  destruct (run_rows_returned d smiles_col out Hwf Hrows)
    as (_ & Hidx & Hcols & Hother & Hcomp).
  pose proof (wf_result d out smiles_col Hwf Hrows) as Hwf'.
  apply get_col_Some_iff in Hin as [data Hdata].
  apply assoc_initial_None in Hnew.
  assert (Hdata' : get_col out smiles_col = Some data)
    by (by rewrite (Hother _ Hnew)).
  assert (Hcells : smiles_cells d smiles_col = data)
    by (unfold smiles_cells; by rewrite Hdata).
  destruct (run_rows_all out smiles_col data Hwf' Hdata')
    as (out2 & Hrows2 & Hidx2 & Hcols2 & Hother2 & Hcomp2).
  assert (Hsame : out2 = out).
  { assert (Hnames : columns out2 = columns out).
    { rewrite Hcols2, columns_add_columns, filter_none; [by rewrite app_nil_r |].
      intros x Hx. apply negb_false_iff, in_list_In.
      rewrite Hcols. by apply computed_in_result. }
    assert (Hget : forall k, get_col out2 k = get_col out k).
    { intros k. destruct (assoc k initial_cells) as [v0|] eqn:Hk.
      - by rewrite (Hcomp2 k v0 Hk), (Hcomp k v0 Hk), Hcells.
      - by apply Hother2. }
    destruct out2 as [idx2 cols2], out as [idx1 cols1].
    cbn [index] in Hidx2. unfold columns, get_col in Hnames, Hget.
    cbn [cols] in Hnames, Hget. f_equal; [done |].
    apply assoc_ext; [done | | done].
    rewrite Hnames. apply Hwf'. }
  exists (fresh (dom h')).
  rewrite (analyze_run h' r out smiles_col Hout), Hrows2, Hsame.
  cbn [fst snd]. split; [done | apply not_elem_of_dom, is_fresh].
Qed.

Lemma reanalysis_fixpoint_witness :
  one_frame sample !! 0%nat = Some sample /\ wf_frame sample
  /\ In "smiles" (columns sample) /\ ~ In "smiles" computed_columns
  /\ @analyze_lipinski toy_engine 0%nat "smiles" (one_frame sample)
     = (inr 1%nat, <[1%nat := sample_result]> (one_frame sample))
  /\ <[1%nat := sample_result]> (one_frame sample) !! 1%nat
     = Some sample_result
  /\ exists r2,
       @analyze_lipinski toy_engine 1%nat "smiles"
         (<[1%nat := sample_result]> (one_frame sample))
       = (inr r2,
          <[r2 := sample_result]> (<[1%nat := sample_result]> (one_frame sample)))
       /\ <[1%nat := sample_result]> (one_frame sample) !! r2 = None.
Proof.
  assert (H1 : one_frame sample !! 0%nat = Some sample) by reflexivity.
  assert (H2 : wf_frame sample) by exact sample_wf.
  assert (H3 : In "smiles" (columns sample)) by (vm_compute; tauto).
  assert (H4 : ~ In "smiles" computed_columns).
  { vm_compute. intros Hin. repeat destruct Hin as [Hin | Hin]; done. }
  assert (H5 : @analyze_lipinski toy_engine 0%nat "smiles" (one_frame sample)
               = (inr 1%nat, <[1%nat := sample_result]> (one_frame sample)))
    by (vm_compute; reflexivity).
  assert (H6 : <[1%nat := sample_result]> (one_frame sample) !! 1%nat
               = Some sample_result) by reflexivity.
  do 6 (split; [assumption |]).
  exact (@reanalysis_fixpoint toy_engine _ _ _ _ _ _ _ H1 H2 H3 H4 H5 H6).
Defined.

(** ** Descriptors that are not numbers *)

Lemma SFeqb_irrefl_nan (f : spec_float) : SFeqb f f = false -> f = S754_nan.
Proof.
  unfold SFeqb. destruct f as [s| s| |s m e]; cbn; try done.
  - by destruct s.
  - destruct s; rewrite Z.compare_refl;
      rewrite ?Pos.compare_cont_refl; cbn; rewrite ?Pos.compare_cont_refl;
      try done.
    all: fold (Pos.compare m m); by rewrite Pos.compare_refl.
Qed.

Lemma float_gt_nan (x n : float) :
  PrimFloat.is_nan x = true -> float_gt x n = false.
Proof.
  unfold PrimFloat.is_nan, float_gt. intros Hx. apply negb_true_iff in Hx.
  rewrite FloatAxioms.eqb_spec in Hx. apply SFeqb_irrefl_nan in Hx.
  rewrite FloatAxioms.ltb_spec, Hx. unfold SFltb, SFcompare.
  by destruct (Prim2SF n).
Qed.

(** X13. A descriptor that is a NaN is no violation: a molecule whose
    weight and logP are NaN and whose donor and acceptor counts are within
    the limits has the violation count 0, so its row is a "Pass". *)
Theorem nan_is_no_violation `{RDKit} (mol : Mol) :
  PrimFloat.is_nan (MolWt mol) = true ->
  PrimFloat.is_nan (MolLogP mol) = true ->
  (NumHDonors mol <= 5)%Z -> (NumHAcceptors mol <= 10)%Z ->
  count_violations mol = 0%Z
  /\ assoc "LipinskiResult" (scored_cells mol) = Some (CStr "Pass").
Proof.
  intros Hmw Hlogp Hd Ha.
  assert (Hzero : count_violations mol = 0%Z).
  { unfold count_violations.
    rewrite (float_gt_nan _ _ Hmw), (float_gt_nan _ _ Hlogp).
    destruct (Z.gtb_spec (NumHDonors mol) 5); [lia |].
    destruct (Z.gtb_spec (NumHAcceptors mol) 10); [lia | done]. }
  split; [done |]. cbn. by rewrite Hzero.
Qed.

Lemma nan_is_no_violation_witness :
  PrimFloat.is_nan (@MolWt toy_engine (mkToy nan nan 0 0)) = true
  /\ PrimFloat.is_nan (@MolLogP toy_engine (mkToy nan nan 0 0)) = true
  /\ (@NumHDonors toy_engine (mkToy nan nan 0 0) <= 5)%Z
  /\ (@NumHAcceptors toy_engine (mkToy nan nan 0 0) <= 10)%Z
  /\ @count_violations toy_engine (mkToy nan nan 0 0) = 0%Z
  /\ assoc "LipinskiResult" (@scored_cells toy_engine (mkToy nan nan 0 0))
     = Some (CStr "Pass").
Proof.
  assert (H1 : PrimFloat.is_nan (@MolWt toy_engine (mkToy nan nan 0 0)) = true)
    by reflexivity.
  assert (H2 : PrimFloat.is_nan (@MolLogP toy_engine (mkToy nan nan 0 0)) = true)
    by reflexivity.
  assert (H3 : (@NumHDonors toy_engine (mkToy nan nan 0 0) <= 5)%Z)
    by (vm_compute; discriminate).
  assert (H4 : (@NumHAcceptors toy_engine (mkToy nan nan 0 0) <= 10)%Z)
    by (vm_compute; discriminate).
  do 4 (split; [assumption |]).
  exact (@nan_is_no_violation toy_engine (mkToy nan nan 0 0) H1 H2 H3 H4).
Defined.
